(** * The binary-operator fuzzer of torch.utils._benchmark.op_fuzzers

    A shallow embedding of [torch/utils/_benchmark/op_fuzzers/binary.py]:
    the module-level size tables, the parameter space that
    [BinaryOpFuzzer.__init__] hands to the [Fuzzer] base class, and the
    static method [BinaryOpFuzzer.structure_params].

    Python dictionaries are objects in a store: [structure_params] copies
    its argument and then mutates the copy with [pop] and item assignment,
    so the embedding threads an explicit heap of dictionaries and lets
    exceptions escape with the heap they leave behind. *)

From Stdlib Require Import ZArith QArith String List Lia.
From Stdlib Require Import DecimalString.
From stdpp Require Import base option list gmap strings fin_maps.

Set Warnings "-register-all".
Local Open Scope string_scope.
Local Open Scope list_scope.
Local Open Scope Z_scope.

(** * The program *)

(** ** The size tables and the parameter space *)

Inductive scale : Type := SMALL | MEDIUM | LARGE.

Definition _MIN_DIM_SIZE : Z := 8.

Definition _MAX_DIM_SIZE (s : scale) : Z :=
  match s with
  | SMALL => 128
  | MEDIUM => 1024
  | LARGE => 16 * 1024 ^ 2
  end.

(** [range(a, b)] *)
Definition range (a b : Z) : list Z := seqZ a (b - a).

(** [int(np.log2(x))]. The table applies it to exact powers of two only,
    where the floating-point logarithm is exact. *)
Definition int_log2 (x : Z) : Z := Z.log2 x.

Definition _POW_TWO_SIZES (s : scale) : list Z :=
  (fun i => 2 ^ i) <$>
    range (int_log2 _MIN_DIM_SIZE) (int_log2 (_MAX_DIM_SIZE s) + 1).

Definition _MIN_ELEMENTS (s : scale) : Z :=
  match s with
  | SMALL => 0
  | MEDIUM => 128
  | LARGE => 4 * 1024
  end.

(** [str(i)] as an f-string prints it. *)
Definition str (i : Z) : string := NilZero.string_of_int (Z.to_int i).

(** A key of a distribution table: a value, or the name of the parameter
    whose value is to be taken. *)
Inductive choice : Type :=
  | Value (z : Z)
  | ParameterAlias (alias_to : string).

(** A distribution is named, or is a table from choices to weights. The
    weights are the decimal literals and quotients of the source, read as
    rationals. *)
Inductive distribution_spec : Type :=
  | Named (shape : string)
  | Weighted (table : list (choice * Q)).

(** The keyword arguments of a [FuzzedParameter(...)] call; [None] stands
    for an argument that the call does not pass. *)
Module FuzzedParameter.
Record t : Type := make {
  name : string;
  minval : option Z;
  maxval : option Z;
  distribution : distribution_spec;
  strict : option bool
}.
End FuzzedParameter.

(** The keyword arguments of a [FuzzedTensor(...)] call; [None] stands for
    an argument that the call does not pass. *)
Module FuzzedTensor.
Record t : Type := make {
  name : string;
  size : list string;
  steps : list string;
  probability_contiguous : Q;
  min_elements : option Z;
  max_elements : option Z;
  max_allocation_bytes : option Z;
  dim_parameter : string;
  dtype : string;
  cuda : bool;
  requires_grad : bool
}.
End FuzzedTensor.

(** An element of the [parameters] list: a parameter, or a list of them. *)
Inductive entry : Type :=
  | Single (q : FuzzedParameter.t)
  | Group (qs : list FuzzedParameter.t).

Module Fuzzer.
Record t : Type := make {
  parameters : list entry;
  tensors : list FuzzedTensor.t;
  seed : Z
}.
End Fuzzer.

(** [BinaryOpFuzzer.__init__]: the arguments of the call to
    [Fuzzer.__init__]. The defaults of the signature ([torch.float32],
    [False], [False], [LARGE]) are for the caller to write out. *)
Definition BinaryOpFuzzer (seed : Z) (dtype : string) (cuda requires_grad : bool)
    (scale : scale) : Fuzzer.t :=
  Fuzzer.make
    [ Single (FuzzedParameter.make "dim" None None
        (Weighted [(Value 1, 0.3); (Value 2, 0.4); (Value 3, 0.3)]%Q)
        (Some true));
      Group ((fun i =>
        FuzzedParameter.make ("k_any_" +:+ str i)
          (Some _MIN_DIM_SIZE) (Some (_MAX_DIM_SIZE scale))
          (Named "loguniform") None) <$> range 0 3);
      Group ((fun i =>
        FuzzedParameter.make ("k_pow2_" +:+ str i) None None
          (Weighted ((fun size =>
             (Value size,
              1 / inject_Z (Z.of_nat (List.length (_POW_TWO_SIZES scale))))%Q)
             <$> _POW_TWO_SIZES scale))
          None) <$> range 0 3);
      Group ((fun i =>
        FuzzedParameter.make ("k" +:+ str i) None None
          (Weighted [ (ParameterAlias ("k_any_" +:+ str i), 0.8);
                      (ParameterAlias ("k_pow2_" +:+ str i), 0.2) ]%Q)
          (Some true)) <$> range 0 3);
      Group ((fun i =>
        FuzzedParameter.make ("y_k" +:+ str i) None None
          (Weighted [ (ParameterAlias ("k" +:+ str i), 0.8);
                      (Value 1, 0.2) ]%Q)
          (Some true)) <$> range 0 3);
      Group (i ← range 0 3; name ← ["x"; "y"];
        [ FuzzedParameter.make (name +:+ "_step_" +:+ str i) None None
            (Weighted [ (Value 1, 0.8); (Value 2, 0.06); (Value 4, 0.06);
                        (Value 8, 0.04); (Value 16, 0.04) ]%Q)
            None ]);
      Single (FuzzedParameter.make "random_value" (Some 0) (Some (2 ^ 32 - 1))
        (Named "uniform") None) ]
    [ FuzzedTensor.make "x" ["k0"; "k1"; "k2"]
        ["x_step_0"; "x_step_1"; "x_step_2"] 0.75%Q
        (Some (_MIN_ELEMENTS scale)) (Some (32 * 1024 ^ 2))
        (Some (2 * 1024 ^ 3)) "dim" dtype cuda requires_grad;
      FuzzedTensor.make "y" ["y_k0"; "y_k1"; "y_k2"]
        ["y_step_0"; "y_step_1"; "y_step_2"] 0.75%Q
        None None
        (Some (2 * 1024 ^ 3)) "dim" dtype cuda requires_grad ]
    seed.

(** The declared parameters in order, the groups flattened. *)
Definition declared (f : Fuzzer.t) : list FuzzedParameter.t :=
  e ← Fuzzer.parameters f;
  match e with
  | Single q => [q]
  | Group qs => qs
  end.

Definition parameter (f : Fuzzer.t) (nm : string) : option FuzzedParameter.t :=
  find (fun q => bool_decide (FuzzedParameter.name q = nm)) (declared f).

Definition tensor (f : Fuzzer.t) (nm : string) : option FuzzedTensor.t :=
  find (fun q => bool_decide (FuzzedTensor.name q = nm)) (Fuzzer.tensors f).

(** ** Python values and exceptions *)

(** The values a parameter mapping carries: machine-independent integers,
    [None], tuples, and [VStr] for an object that is neither (it has no
    [__index__], so it cannot bound a slice). *)
Inductive value : Type :=
  | VInt (z : Z)
  | VNone
  | VStr (s : string)
  | VTuple (items : list value).

Inductive exn : Type :=
  | KeyError (key : string)
  | TypeError.

(** A dictionary with string keys; a heap is the sequence of dictionary
    objects allocated so far and a reference is a position in it. *)
Abbreviation dict := (gmap string value).
Abbreviation loc := nat.
Abbreviation heap := (list (gmap string value)).

(** ** Computations over the heap that may raise *)

Definition M (A : Type) : Type := heap -> (exn + A) * heap.

(** An expression that touches no object: its value or its exception. *)
Definition lift {A} (r : exn + A) : M A := fun h => (r, h).

#[global] Instance M_ret : MRet M := fun A (a : A) h => (inr a, h).

#[global] Instance M_bind : MBind M := fun A B (f : A -> M B) (m : M A) h =>
  match m h with
  | (inl e, h') => (inl e, h')
  | (inr a, h') => f a h'
  end.

(** [for x in xs: body x] *)
Fixpoint for_each {A} (xs : list A) (body : A -> M unit) : M unit :=
  match xs with
  | [] => mret tt
  | x :: xs' => body x ;; for_each xs' body
  end.

(** [tuple(f(x) for x in xs)]: the generator is run left to right and the
    first exception ends it. *)
Fixpoint tuple_of {A} (f : A -> M value) (xs : list A) : M (list value) :=
  match xs with
  | [] => mret []
  | x :: xs' => v ← f x; vs ← tuple_of f xs'; mret (v :: vs)
  end.

(** ** Dictionary methods *)

(** A reference that names no object does not occur in Python; the
    primitives answer it with [TypeError] so that they stay total. *)
Definition with_dict {A} (l : loc) (k : gmap string value -> M A) : M A :=
  fun h => match h !! l with
           | Some d => k d h
           | None => (inl TypeError, h)
           end.

(** [d.copy()]: a new object with the same items. *)
Definition dict_copy (l : loc) : M loc :=
  with_dict l (fun d h => (inr (List.length h), h ++ [d])).

(** [d.pop(k)] without a default: [KeyError] when [k] is absent. *)
Definition dict_pop (l : loc) (k : string) : M value :=
  with_dict l (fun d h =>
    match d !! k with
    | Some v => (inr v, <[l := delete k d]> h)
    | None => (inl (KeyError k), h)
    end).

(** [d[k] = v] *)
Definition dict_setitem (l : loc) (k : string) (v : value) : M unit :=
  with_dict l (fun d h => (inr tt, <[l := <[k := v]> d]> h)).

(** [list(d.keys())]: a snapshot of the keys, each once. The map lists
    them in its own order, not in Python's insertion order. *)
Definition dict_keys (l : loc) : M (list string) :=
  with_dict l (fun d h => (inr (map_to_list d).*1, h)).

(** [k.startswith(p)] *)
Definition startswith (k p : string) : bool := String.prefix p k.

(** ** Slicing *)

(** The stop position of [t[:d]] for a sequence of length [n]: a negative
    bound counts from the end, and every bound is clamped to [0..n]. *)
Definition slice_stop (n : nat) (d : Z) : nat :=
  if d <? 0 then Z.to_nat (Z.max 0 (Z.of_nat n + d))
  else Z.to_nat (Z.min d (Z.of_nat n)).

(** [t[:d]]: [d] must be an integer or [None]. *)
Definition slice_to (t : list value) (d : value) : exn + list value :=
  match d with
  | VInt z => inr (take (slice_stop (List.length t) z) t)
  | VNone => inr t
  | _ => inl TypeError
  end.

(** ** [BinaryOpFuzzer.structure_params] *)

Definition structure_params (params : loc) : M loc :=
  params ← dict_copy params;
  dict_pop params "random_value" ;;
  ks ← dict_keys params;
  for_each ks (fun k =>
    if startswith k "k_any" || startswith k "k_pow2"
    then dict_pop params k ;; mret tt
    else mret tt) ;;
  dim ← dict_pop params "dim";
  t ← tuple_of (dict_pop params) ["k0"; "k1"; "k2"];
  s ← lift (slice_to t dim);
  dict_setitem params "x_size" (VTuple s) ;;
  t ← tuple_of (dict_pop params) ["x_step_0"; "x_step_1"; "x_step_2"];
  s ← lift (slice_to t dim);
  dict_setitem params "x_steps" (VTuple s) ;;
  t ← tuple_of (dict_pop params) ["y_k0"; "y_k1"; "y_k2"];
  s ← lift (slice_to t dim);
  dict_setitem params "y_size" (VTuple s) ;;
  t ← tuple_of (dict_pop params) ["y_step_0"; "y_step_1"; "y_step_2"];
  s ← lift (slice_to t dim);
  dict_setitem params "y_steps" (VTuple s) ;;
  mret params.

(** What a caller observes of a call: the exception, or the items of the
    dictionary it got back. *)
Definition outcome (r : (exn + loc) * heap) : option (exn + gmap string value) :=
  match r with
  | (inl e, _) => Some (inl e)
  | (inr l, h) => inr <$> h !! l
  end.

(** * Definitions for the statements *)

(** The names of the two intermediate families. *)
Definition intermediate (k : string) : bool :=
  startswith k "k_any" || startswith k "k_pow2".

(** A dictionary without its intermediate items. *)
Definition strip (d : gmap string value) : gmap string value :=
  filter (fun kv => intermediate kv.1 = false) d.

Definition remove_keys (ks : list string) (d : gmap string value) :
    gmap string value :=
  foldl (fun d k => delete k d) d ks.

#[global] Instance exn_ret : MRet (sum exn) := fun A (a : A) => inr a.

#[global] Instance exn_bind : MBind (sum exn) := fun A B (f : A -> exn + B) r =>
  match r with
  | inl e => inl e
  | inr a => f a
  end.

(** The item of [k], or the [KeyError] that popping it raises. *)
Definition need (p : gmap string value) (k : string) : exn + value :=
  match p !! k with
  | Some v => inr v
  | None => inl (KeyError k)
  end.

(** The names that [structure_params] pops by name, in the order in which
    it pops them. *)
Definition consumed : list string :=
  [ "random_value"; "dim";
    "k0"; "k1"; "k2"; "x_step_0"; "x_step_1"; "x_step_2";
    "y_k0"; "y_k1"; "y_k2"; "y_step_0"; "y_step_1"; "y_step_2" ].

(** The items that no step of [structure_params] removes. *)
Definition leftover (p : gmap string value) : gmap string value :=
  filter (fun kv => intermediate kv.1 = false /\ kv.1 ∉ consumed) p.

(** The functional summary of [structure_params]: the dictionary it
    returns, or the exception it raises, from the items [p] of its
    argument. [structure_params_run] below proves that the heap program
    computes exactly this. *)
Definition structured (p : gmap string value) : exn + gmap string value :=
  need p "random_value" ;;
  dim ← need p "dim";
  t ← mapM (need p) ["k0"; "k1"; "k2"];
  x_size ← slice_to t dim;
  t ← mapM (need p) ["x_step_0"; "x_step_1"; "x_step_2"];
  x_steps ← slice_to t dim;
  t ← mapM (need p) ["y_k0"; "y_k1"; "y_k2"];
  y_size ← slice_to t dim;
  t ← mapM (need p) ["y_step_0"; "y_step_1"; "y_step_2"];
  y_steps ← slice_to t dim;
  mret (<["y_steps" := VTuple y_steps]>
       (<["y_size" := VTuple y_size]>
       (<["x_steps" := VTuple x_steps]>
       (<["x_size" := VTuple x_size]> (leftover p))))).

(** [structures p out]: the items [p] have every consumed name, [dim]
    bounds a slice, and [out] is the dictionary built from them. *)
Inductive structures (p : gmap string value) : gmap string value -> Prop :=
  | structures_intro rv dim a0 a1 a2 b0 b1 b2 c0 c1 c2 e0 e1 e2 xs xt ys yt :
      p !! "random_value" = Some rv ->
      p !! "dim" = Some dim ->
      p !! "k0" = Some a0 -> p !! "k1" = Some a1 -> p !! "k2" = Some a2 ->
      p !! "x_step_0" = Some b0 -> p !! "x_step_1" = Some b1 ->
      p !! "x_step_2" = Some b2 ->
      p !! "y_k0" = Some c0 -> p !! "y_k1" = Some c1 -> p !! "y_k2" = Some c2 ->
      p !! "y_step_0" = Some e0 -> p !! "y_step_1" = Some e1 ->
      p !! "y_step_2" = Some e2 ->
      slice_to [a0; a1; a2] dim = inr xs ->
      slice_to [b0; b1; b2] dim = inr xt ->
      slice_to [c0; c1; c2] dim = inr ys ->
      slice_to [e0; e1; e2] dim = inr yt ->
      structures p
        (<["y_steps" := VTuple yt]> (<["y_size" := VTuple ys]>
        (<["x_steps" := VTuple xt]> (<["x_size" := VTuple xs]> (leftover p))))).

(** The four names under which [structure_params] stores its results. *)
Definition derived : list string := ["x_size"; "x_steps"; "y_size"; "y_steps"].

(** One resolved trial: every declared parameter with a value. *)
Definition sample : gmap string value :=
  list_to_map
    [ ("dim", VInt 2);
      ("k_any_0", VInt 100); ("k_any_1", VInt 9); ("k_any_2", VInt 77);
      ("k_pow2_0", VInt 64); ("k_pow2_1", VInt 8); ("k_pow2_2", VInt 16);
      ("k0", VInt 100); ("k1", VInt 8); ("k2", VInt 77);
      ("y_k0", VInt 100); ("y_k1", VInt 1); ("y_k2", VInt 77);
      ("x_step_0", VInt 1); ("y_step_0", VInt 1);
      ("x_step_1", VInt 2); ("y_step_1", VInt 1);
      ("x_step_2", VInt 1); ("y_step_2", VInt 16);
      ("random_value", VInt 12345) ].

(** The same trial with one more parameter than the fuzzer declares. *)
Definition sample_extra : gmap string value := <["alpha" := VInt 7]> sample.

(** The trial with its [y_k1] missing. *)
Definition sample_short : gmap string value := delete "y_k1" sample.

(** Every name that [BinaryOpFuzzer.__init__] declares. *)
Definition declared_names : list string :=
  consumed ++
  [ "k_any_0"; "k_any_1"; "k_any_2"; "k_pow2_0"; "k_pow2_1"; "k_pow2_2" ].

(** What the call on [sample] returns. *)
Definition sample_out : gmap string value :=
  list_to_map
    [ ("x_size", VTuple [VInt 100; VInt 8]);
      ("x_steps", VTuple [VInt 1; VInt 2]);
      ("y_size", VTuple [VInt 100; VInt 1]);
      ("y_steps", VTuple [VInt 1; VInt 1]) ].

Definition is_power_of_two (n : Z) : Prop := exists e : Z, 0 <= e /\ n = 2 ^ e.

(** A value that can bound a slice: an integer or [None]. *)
Definition indexable (v : value) : bool :=
  match v with
  | VInt _ | VNone => true
  | _ => false
  end.

(** The first of the names [ks] that the items [p] lack. *)
Definition first_absent (p : gmap string value) (ks : list string) :
    option string :=
  find (fun k => bool_decide (p !! k = None)) ks.

(** The names that [structure_params] pops before it takes the first
    slice. *)
Definition popped_before_slice : list string :=
  ["random_value"; "dim"; "k0"; "k1"; "k2"].

(** The parameter names that the table of a declaration refers to. *)
Definition aliases (q : FuzzedParameter.t) : list string :=
  match FuzzedParameter.distribution q with
  | Named _ => []
  | Weighted table =>
      c ← table.*1;
      match c with
      | Value _ => []
      | ParameterAlias a => [a]
      end
  end.

(** The values that the table of a declaration can give directly. *)
Definition literals (q : FuzzedParameter.t) : list Z :=
  match FuzzedParameter.distribution q with
  | Named _ => []
  | Weighted table =>
      c ← table.*1;
      match c with
      | Value z => [z]
      | ParameterAlias _ => []
      end
  end.

(** Every alias of every declaration names a declaration before it;
    [seen] holds the names declared so far. *)
Fixpoint aliases_resolve (seen : list string) (qs : list FuzzedParameter.t) :
    bool :=
  match qs with
  | [] => true
  | q :: qs' =>
      forallb (fun a => bool_decide (a ∈ seen)) (aliases q)
      && aliases_resolve (FuzzedParameter.name q :: seen) qs'
  end.


(** The argument already has items under two of the derived names. *)
Definition sample_shadowed : gmap string value :=
  <["x_size" := VStr "old"]> (<["y_steps" := VInt 0]> sample).

(** The trial without [y_k1] and without [y_step_0]. *)
Definition sample_two_short : gmap string value :=
  delete "y_step_0" (delete "y_k1" sample).

(** The trial with another entropy value and without one intermediate
    item. *)
Definition sample_reseeded : gmap string value :=
  delete "k_any_0" (<["random_value" := VInt 0]> sample).

(** * Properties *)

(** ** Running at the newest object

    After [dict_copy] the working dictionary is the last object of the
    heap; every later step of [structure_params] reads and writes only
    that object. *)

Section Newest.
Context (h : heap) (n : loc) (Hn : n = List.length h).

Lemma lookup_newest (d : gmap string value) : (h ++ [d]) !! n = Some d.
Proof. subst n. by rewrite list_lookup_middle. Qed.

Lemma insert_newest (d d' : gmap string value) :
  <[n := d']> (h ++ [d]) = h ++ [d'].
Proof.
  subst n. rewrite insert_app_r_alt by lia.
  by rewrite Nat.sub_diag.
Qed.

Lemma run_pop {B} (k : string) (f : value -> M B) (d : gmap string value) :
  (dict_pop n k ≫= f) (h ++ [d]) =
  match d !! k with
  | Some v => f v (h ++ [delete k d])
  | None => (inl (KeyError k), h ++ [d])
  end.
Proof.
  unfold mbind, M_bind, dict_pop, with_dict.
  rewrite lookup_newest. destruct (d !! k); [|done].
  by rewrite insert_newest.
Qed.

Lemma run_setitem {B} (k : string) (v : value) (f : unit -> M B)
    (d : gmap string value) :
  (dict_setitem n k v ≫= f) (h ++ [d]) = f tt (h ++ [<[k := v]> d]).
Proof.
  unfold mbind, M_bind, dict_setitem, with_dict.
  by rewrite lookup_newest, insert_newest.
Qed.

Lemma run_keys {B} (f : list string -> M B) (d : gmap string value) :
  (dict_keys n ≫= f) (h ++ [d]) = f (map_to_list d).*1 (h ++ [d]).
Proof.
  unfold mbind, M_bind, dict_keys, with_dict.
  by rewrite lookup_newest.
Qed.
End Newest.

Lemma run_copy {B} (h : heap) (l : loc) (p : gmap string value) (f : loc -> M B) :
  h !! l = Some p ->
  (dict_copy l ≫= f) h = f (List.length h) (h ++ [p]).
Proof. intros Hl. unfold mbind, M_bind, dict_copy, with_dict. by rewrite Hl. Qed.

Lemma run_ret {A B} (a : A) (f : A -> M B) (h : heap) : (mret a ≫= f) h = f a h.
Proof. done. Qed.

Lemma run_lift {A B} (r : exn + A) (f : A -> M B) (h : heap) :
  (lift r ≫= f) h = match r with inl e => (inl e, h) | inr a => f a h end.
Proof. unfold mbind, M_bind, lift. by destruct r. Qed.

Lemma run_assoc {A B C} (m : M A) (g : A -> M B) (f : B -> M C) (h : heap) :
  ((m ≫= g) ≫= f) h = (m ≫= fun a => g a ≫= f) h.
Proof. unfold mbind, M_bind. by destruct (m h) as [[e|a] h']. Qed.

(** ** The filtering loop *)

Lemma lookup_remove_keys (ks : list string) (d : gmap string value) (k : string) :
  remove_keys ks d !! k = if decide (k ∈ ks) then None else d !! k.
Proof.
  revert d. induction ks as [|k' ks IH]; intros d; simpl.
  - done.
  - rewrite IH. destruct (decide (k = k')) as [->|Hne].
    + rewrite lookup_delete_eq, (decide_True (P := k' ∈ k' :: ks))
        by apply list_elem_of_here.
      by destruct (decide (k' ∈ ks)).
    + rewrite lookup_delete_ne by done.
      destruct (decide (k ∈ ks)) as [Hin|Hin].
      * by rewrite decide_True by by apply list_elem_of_further.
      * rewrite decide_False; [done|].
        by intros [?|?]%elem_of_cons.
Qed.

Lemma lookup_strip (d : gmap string value) (k : string) :
  strip d !! k = if intermediate k then None else d !! k.
Proof.
  unfold strip. apply option_eq; intros v.
  rewrite map_lookup_filter_Some; cbn [fst].
  destruct (intermediate k); intuition congruence.
Qed.

Lemma strip_delete (k : string) (d : gmap string value) :
  strip (delete k d) = delete k (strip d).
Proof. unfold strip. apply map_filter_delete. Qed.

Section Loop.
Context (h : heap) (n : loc) (Hn : n = List.length h).

Lemma run_loop_keys (ks : list string) (d : gmap string value) :
  NoDup ks ->
  (forall k, k ∈ ks -> is_Some (d !! k)) ->
  for_each ks (fun k =>
    if startswith k "k_any" || startswith k "k_pow2"
    then dict_pop n k ;; mret tt
    else mret tt) (h ++ [d]) =
  (inr tt, h ++ [remove_keys (filter (fun k => intermediate k = true) ks) d]).
Proof.
  revert d. induction ks as [|k ks IH]; intros d Hnd Hin; [done|].
  apply NoDup_cons in Hnd as [Hk Hnd].
  cbn [for_each]. fold (intermediate k).
  rewrite filter_cons. destruct (intermediate k) eqn:Ek.
  - rewrite decide_True by done.
    rewrite run_assoc, run_pop by done.
    destruct (Hin k) as [v Hv]; [apply list_elem_of_here|]. rewrite Hv.
    rewrite run_ret. rewrite IH; [done|done|].
    intros k' Hk'. rewrite lookup_delete_ne by (intros ->; done).
    apply Hin. by apply list_elem_of_further.
  - rewrite decide_False by done. rewrite run_ret.
    apply IH; [done|]. intros k' Hk'. apply Hin. by apply list_elem_of_further.
Qed.

Lemma run_loop {B} (f : unit -> M B) (d : gmap string value) :
  (for_each (map_to_list d).*1 (fun k =>
     if startswith k "k_any" || startswith k "k_pow2"
     then dict_pop n k ;; mret tt
     else mret tt) ≫= f) (h ++ [d]) = f tt (h ++ [strip d]).
Proof.
  unfold mbind, M_bind at 1.
  rewrite run_loop_keys.
  - f_equal. f_equal. f_equal. apply map_eq; intros k.
    rewrite lookup_remove_keys, lookup_strip.
    destruct (intermediate k) eqn:Ek.
    + case_decide as Hk; [done|].
      apply eq_None_not_Some. intros [v Hv]. apply Hk.
      apply list_elem_of_filter. split; [done|].
      apply list_elem_of_fmap. exists (k, v). split; [done|].
      by apply elem_of_map_to_list.
    + rewrite decide_False; [done|].
      intros [Hk _]%list_elem_of_filter. congruence.
  - apply NoDup_fst_map_to_list.
  - intros k [[k' v] [-> Hkv]]%list_elem_of_fmap.
    apply elem_of_map_to_list in Hkv. by exists v.
Qed.
End Loop.

Lemma lookup_strip_keep (d : gmap string value) (k : string) :
  intermediate k = false -> strip d !! k = d !! k.
Proof. intros Hk. by rewrite lookup_strip, Hk. Qed.

Lemma lookup_leftover (p : gmap string value) (k : string) :
  leftover p !! k =
  if intermediate k then None
  else if decide (k ∈ consumed) then None else p !! k.
Proof.
  unfold leftover. apply option_eq; intros v.
  rewrite map_lookup_filter_Some; cbn [fst].
  destruct (intermediate k); [intuition congruence|].
  case_decide; intuition congruence.
Qed.

Lemma leftover_remove_keys (p : gmap string value) :
  remove_keys consumed (strip p) = leftover p.
Proof.
  apply map_eq; intros k.
  rewrite lookup_remove_keys, lookup_leftover, lookup_strip.
  destruct (intermediate k); by case_decide.
Qed.

(** The dictionary that the sequence of pops and assignments leaves. *)
Lemma settle (p : gmap string value) (xs xt ys yt : value) :
  <["y_steps" := yt]>
    (delete "y_step_2" (delete "y_step_1" (delete "y_step_0"
    (<["y_size" := ys]>
    (delete "y_k2" (delete "y_k1" (delete "y_k0"
    (<["x_steps" := xt]>
    (delete "x_step_2" (delete "x_step_1" (delete "x_step_0"
    (<["x_size" := xs]>
    (delete "k2" (delete "k1" (delete "k0"
    (delete "dim" (strip (delete "random_value" p))))))))))))))))))
  = <["y_steps" := yt]> (<["y_size" := ys]> (<["x_steps" := xt]>
      (<["x_size" := xs]> (leftover p)))).
Proof.
  rewrite !delete_insert_ne by done.
  rewrite strip_delete. by rewrite <- leftover_remove_keys.
Qed.

(** ** The heap program computes [structured] *)

Lemma sum_assoc {A B C} (m : exn + A) (g : A -> exn + B) (f : B -> exn + C) :
  (m ≫= g) ≫= f = m ≫= fun a => g a ≫= f.
Proof. by destruct m. Qed.

Lemma sum_inr {A B} (a : A) (f : A -> exn + B) : inr a ≫= f = f a.
Proof. done. Qed.

Lemma sum_ret {A B} (a : A) (f : A -> exn + B) : mret a ≫= f = f a.
Proof. done. Qed.

Lemma sum_inl {A B} (e : exn) (f : A -> exn + B) : inl e ≫= f = inl e.
Proof. done. Qed.

Lemma need_bind {B} (p : gmap string value) (k : string) (f : value -> exn + B) :
  need p k ≫= f =
  match p !! k with
  | Some v => f v
  | None => inl (KeyError k)
  end.
Proof. unfold need. by destruct (p !! k). Qed.

Ltac find_item :=
  repeat first
    [ rewrite lookup_delete_ne by done
    | rewrite lookup_insert_ne by done
    | rewrite lookup_strip_keep by reflexivity ].

Ltac run_step :=
  rewrite ?run_assoc;
  first
    [ rewrite run_ret
    | rewrite run_pop by done
    | rewrite run_setitem by done
    | rewrite run_keys by done
    | rewrite run_loop by done
    | rewrite run_lift ].

Ltac raised := eexists; split; [reflexivity | discriminate].

Ltac pop_case p :=
  run_step; find_item; rewrite ?sum_assoc, need_bind;
  match goal with
  | |- context [p !! ?k] => destruct (p !! k) eqn:?; [ | raised ]
  end.

Ltac rets :=
  repeat (rewrite ?run_assoc; rewrite run_ret);
  repeat (rewrite ?sum_assoc; rewrite sum_ret).

Ltac slice_case :=
  run_step; rewrite ?sum_assoc; cbn [slice_to];
  first [ rewrite sum_inr | rewrite sum_inl; raised ].

Theorem structure_params_run (h : heap) (l : loc) (p : gmap string value) :
  h !! l = Some p ->
  exists d' : gmap string value,
    structure_params l h =
      (match structured p with
       | inl e => inl e
       | inr _ => inr (List.length h)
       end, h ++ [d'])
    /\ forall out, structured p = inr out -> d' = out.
Proof.
  intros Hl. unfold structure_params. rewrite (run_copy h l p) by done.
  set (n := List.length h). assert (Hn : n = List.length h) by done.
  clearbody n.
  unfold structured. cbn [mapM tuple_of].
  pop_case p. run_step. run_step.
  pop_case p.
  do 3 pop_case p. rets.
  match goal with |- context [slice_to _ ?dim] => destruct dim end.
  all: slice_case.
  all: run_step; do 3 pop_case p; rets; slice_case.
  all: run_step; do 3 pop_case p; rets; slice_case.
  all: run_step; do 3 pop_case p; rets; slice_case.
  all: run_step.
  all: eexists; split; [reflexivity|].
  all: intros out [= <-]; apply settle.
Qed.

(** ** The successful calls *)

Lemma structures_structured (p out : gmap string value) :
  structures p out -> structured p = inr out.
Proof.
  intros []. unfold structured, need. cbn [mapM].
  repeat match goal with H : p !! _ = Some _ |- _ => rewrite H; clear H end.
  cbn [mbind exn_bind mret exn_ret].
  repeat match goal with H : slice_to _ _ = inr _ |- _ => rewrite H; clear H end.
  done.
Qed.

Lemma structured_structures (p out : gmap string value) :
  structured p = inr out -> structures p out.
Proof.
  unfold structured. cbn [mapM]. intros H.
  repeat match type of H with
  | context [need p ?k] =>
      rewrite ?sum_assoc, need_bind in H;
      destruct (p !! k) eqn:?; [|discriminate H];
      repeat (rewrite ?sum_assoc, sum_ret in H)
  | context [slice_to ?t ?d ≫= _] =>
      destruct (slice_to t d) eqn:?; [discriminate H|];
      rewrite sum_inr in H
  end.
  injection H as <-. by eapply structures_intro.
Qed.

(** A call returns exactly when its argument [structures]; the result is a
    new object, placed after every object of the heap it was called in. *)
Lemma structure_params_returns (h : heap) (l : loc) (p out : gmap string value) :
  h !! l = Some p ->
  structures p out ->
  structure_params l h = (inr (List.length h), h ++ [out]).
Proof.
  intros Hl Hs%structures_structured.
  destruct (structure_params_run h l p Hl) as (d' & Hrun & Hd').
  rewrite Hs in Hrun. by rewrite (Hd' out Hs) in Hrun.
Qed.

Lemma structure_params_returned (h h' : heap) (l r : loc) (p : gmap string value) :
  h !! l = Some p ->
  structure_params l h = (inr r, h') ->
  exists out, structures p out /\ r = List.length h /\ h' = h ++ [out].
Proof.
  intros Hl Hr.
  destruct (structure_params_run h l p Hl) as (d' & Hrun & Hd').
  rewrite Hr in Hrun. destruct (structured p) as [e|out] eqn:Hs; [done|].
  injection Hrun as -> ->. exists out.
  rewrite (Hd' out eq_refl). by split; [apply structured_structures|].
Qed.

Lemma structure_params_outcome (h : heap) (l : loc) (p : gmap string value) :
  h !! l = Some p ->
  outcome (structure_params l h) = Some (structured p).
Proof.
  intros Hl.
  destruct (structure_params_run h l p Hl) as (d' & Hrun & Hd').
  rewrite Hrun. destruct (structured p) as [e|out]; [done|].
  cbn [outcome]. rewrite list_lookup_middle by done.
  by rewrite (Hd' out eq_refl).
Qed.

(** Every call leaves the objects of the heap as they were and adds one. *)
Lemma structure_params_frame (h h' : heap) (l : loc) (p : gmap string value) r :
  h !! l = Some p ->
  structure_params l h = (r, h') ->
  exists d', h' = h ++ [d'].
Proof.
  intros Hl Hr.
  destruct (structure_params_run h l p Hl) as (d' & Hrun & _).
  rewrite Hr in Hrun. injection Hrun as _ ->. by exists d'.
Qed.

Ltac lookup_derived :=
  repeat first
    [ rewrite lookup_insert_eq
    | rewrite lookup_insert_ne by done ];
  try reflexivity.

(** With every consumed name present and an integer [dim], the call
    returns; the four derived items are the families cut at
    [slice_stop 3 d], and every other item is a leftover of the input. *)
Lemma structure_params_int_dim (h : heap) (l : loc) (p : gmap string value)
    (d : Z) (rv a0 a1 a2 b0 b1 b2 c0 c1 c2 e0 e1 e2 : value) :
  h !! l = Some p ->
  p !! "random_value" = Some rv ->
  p !! "dim" = Some (VInt d) ->
  p !! "k0" = Some a0 -> p !! "k1" = Some a1 -> p !! "k2" = Some a2 ->
  p !! "x_step_0" = Some b0 -> p !! "x_step_1" = Some b1 ->
  p !! "x_step_2" = Some b2 ->
  p !! "y_k0" = Some c0 -> p !! "y_k1" = Some c1 -> p !! "y_k2" = Some c2 ->
  p !! "y_step_0" = Some e0 -> p !! "y_step_1" = Some e1 ->
  p !! "y_step_2" = Some e2 ->
  exists out : gmap string value,
    structure_params l h = (inr (List.length h), h ++ [out])
    /\ out !! "x_size" = Some (VTuple (take (slice_stop 3 d) [a0; a1; a2]))
    /\ out !! "x_steps" = Some (VTuple (take (slice_stop 3 d) [b0; b1; b2]))
    /\ out !! "y_size" = Some (VTuple (take (slice_stop 3 d) [c0; c1; c2]))
    /\ out !! "y_steps" = Some (VTuple (take (slice_stop 3 d) [e0; e1; e2]))
    /\ forall k, k ∉ derived -> out !! k = leftover p !! k.
Proof.
  intros Hl; intros.
  eexists. split.
  { apply (structure_params_returns h l p _ Hl).
    eapply structures_intro; try eassumption; reflexivity. }
  cbn [List.length].
  repeat split; try lookup_derived.
  intros k Hk. unfold derived in Hk.
  rewrite !lookup_insert_ne; [done|..]; intros <-; apply Hk; set_solver.
Qed.

Lemma consumed_items (p : gmap string value) :
  (forall k, k ∈ consumed -> is_Some (p !! k)) ->
  exists rv dim a0 a1 a2 b0 b1 b2 c0 c1 c2 e0 e1 e2,
    p !! "random_value" = Some rv /\ p !! "dim" = Some dim /\
    p !! "k0" = Some a0 /\ p !! "k1" = Some a1 /\ p !! "k2" = Some a2 /\
    p !! "x_step_0" = Some b0 /\ p !! "x_step_1" = Some b1 /\
    p !! "x_step_2" = Some b2 /\
    p !! "y_k0" = Some c0 /\ p !! "y_k1" = Some c1 /\ p !! "y_k2" = Some c2 /\
    p !! "y_step_0" = Some e0 /\ p !! "y_step_1" = Some e1 /\
    p !! "y_step_2" = Some e2.
Proof.
  intros H.
  assert (Hall : Forall (fun k => is_Some (p !! k)) consumed)
    by (apply list.Forall_forall; intros k Hk; by apply H).
  unfold consumed in Hall.
  repeat match goal with
  | Hf : Forall _ (_ :: _) |- _ =>
      apply Forall_cons in Hf as [[? ?] Hf]
  end.
  repeat eexists; eassumption.
Qed.

Lemma dom_leftover (p : gmap string value) :
  dom (leftover p) =
  filter (fun k => intermediate k = false /\ k ∉ consumed) (dom p).
Proof.
  apply set_eq; intros k.
  rewrite elem_of_filter, !elem_of_dom, lookup_leftover.
  destruct (intermediate k).
  - split; [by intros [? ?]|by intros [[? ?] _]].
  - case_decide; split; try tauto.
    by intros [? ?].
Qed.

Example sample_run :
  exists out,
    structure_params 0%nat [sample] = (inr 1%nat, [sample; out]) /\
    map_to_list out =
      [ ("y_size", VTuple [VInt 100; VInt 1]);
        ("y_steps", VTuple [VInt 1; VInt 1]);
        ("x_size", VTuple [VInt 100; VInt 8]);
        ("x_steps", VTuple [VInt 1; VInt 2]) ].
Proof. eexists. split; vm_compute; reflexivity. Qed.

(** ** The claims about [structure_params] *)

(** C1, as the specification words it, fails: a sample that has every
    declared name and one more keeps the extra item, so the returned keys
    are not just the four derived ones. *)
Lemma structure_params_keeps_extra_key :
  (forall k, k ∈ declared_names -> is_Some (sample_extra !! k)) /\
  exists out,
    structure_params 0%nat [sample_extra] = (inr 1%nat, [sample_extra; out]) /\
    out !! "alpha" = Some (VInt 7) /\
    dom out <> list_to_set derived.
Proof.
  split.
  { apply list.Forall_forall. unfold declared_names, consumed. cbn [app].
    repeat (apply Forall_cons; split; [by eexists; vm_compute|]).
    constructor. }
  eexists. split; [vm_compute; reflexivity|]. split; [by vm_compute|].
  intros Heq.
  apply (f_equal (fun s : gset string => bool_decide ("alpha" ∈ s))) in Heq.
  vm_compute in Heq. discriminate Heq.
Qed.

(** C1 (amended): for a sample with every consumed name and an integer
    [dim] the call returns a dictionary whose keys are the four derived
    names together with the input keys that are neither consumed nor of an
    intermediate family; those are exactly the four derived names when the
    input has no key beyond the consumed and the intermediate ones. *)
Theorem structure_params_keys (h : heap) (l : loc) (p : gmap string value) (d : Z) :
  h !! l = Some p ->
  (forall k, k ∈ consumed -> is_Some (p !! k)) ->
  p !! "dim" = Some (VInt d) ->
  exists out : gmap string value,
    structure_params l h = (inr (List.length h), h ++ [out])
    /\ dom out =
         list_to_set derived ∪
         filter (fun k => intermediate k = false /\ k ∉ consumed) (dom p)
    /\ ((forall k, is_Some (p !! k) -> k ∈ consumed \/ intermediate k = true) ->
         dom out = list_to_set derived).
Proof.
  intros Hl Hall Hdim.
  destruct (consumed_items p Hall)
    as (rv & dim & a0 & a1 & a2 & b0 & b1 & b2 & c0 & c1 & c2 & e0 & e1 & e2 &
        ? & Hd & ? & ? & ? & ? & ? & ? & ? & ? & ? & ? & ? & ?).
  rewrite Hdim in Hd. injection Hd as <-.
  destruct (structure_params_int_dim h l p d rv a0 a1 a2 b0 b1 b2 c0 c1 c2
              e0 e1 e2) as (out & Hrun & Hxs & Hxt & Hys & Hyt & Hrest);
    try done.
  exists out. split; [done|].
  assert (Hdom : dom out =
    list_to_set derived ∪
    filter (fun k => intermediate k = false /\ k ∉ consumed) (dom p)).
  { rewrite <- dom_leftover. apply set_eq; intros k.
    rewrite elem_of_union, !elem_of_dom, elem_of_list_to_set.
    destruct (decide (k ∈ derived)) as [Hk|Hk].
    - split; [by left|intros _].
      unfold derived in Hk.
      repeat (apply elem_of_cons in Hk as [->|Hk]; [by eexists|]).
      by apply elem_of_nil in Hk.
    - rewrite (Hrest k Hk). tauto. }
  split; [done|]. intros Honly. rewrite Hdom.
  apply set_eq; intros k. rewrite elem_of_union, elem_of_filter, elem_of_dom.
  split; [|by left]. intros [?|[[Hi Hc] Hk]]; [done|].
  destruct (Honly k Hk); congruence.
Qed.

Lemma structure_params_keys_witness :
  exists out : gmap string value,
    structure_params 0%nat [sample] = (inr 1%nat, [sample] ++ [out])
    /\ dom out =
         list_to_set derived ∪
         filter (fun k => intermediate k = false /\ k ∉ consumed)
           (dom sample)
    /\ ((forall k, is_Some (sample !! k) ->
          k ∈ consumed \/ intermediate k = true) ->
         dom out = list_to_set derived).
Proof.
  apply (structure_params_keys [sample] 0%nat sample 2).
  - reflexivity.
  - apply list.Forall_forall. unfold consumed.
    repeat (apply Forall_cons; split; [eexists; vm_compute; reflexivity|]).
    constructor.
  - vm_compute. reflexivity.
Defined.

(** C3: with [dim] in {1,2,3} the call returns, [x_size] and [x_steps] are
    the first [dim] items of (k0,k1,k2) and (x_step_0,x_step_1,x_step_2) in
    axis order, [y_size] and [y_steps] likewise from the [y] families, and
    all four have length [dim]. *)
Theorem structure_params_truncates (h : heap) (l : loc) (p : gmap string value)
    (d : Z) (rv a0 a1 a2 b0 b1 b2 c0 c1 c2 e0 e1 e2 : value) :
  h !! l = Some p ->
  p !! "random_value" = Some rv ->
  p !! "dim" = Some (VInt d) ->
  p !! "k0" = Some a0 -> p !! "k1" = Some a1 -> p !! "k2" = Some a2 ->
  p !! "x_step_0" = Some b0 -> p !! "x_step_1" = Some b1 ->
  p !! "x_step_2" = Some b2 ->
  p !! "y_k0" = Some c0 -> p !! "y_k1" = Some c1 -> p !! "y_k2" = Some c2 ->
  p !! "y_step_0" = Some e0 -> p !! "y_step_1" = Some e1 ->
  p !! "y_step_2" = Some e2 ->
  1 <= d <= 3 ->
  exists (out : gmap string value) (x_size x_steps y_size y_steps : list value),
    structure_params l h = (inr (List.length h), h ++ [out])
    /\ out !! "x_size" = Some (VTuple x_size)
    /\ out !! "x_steps" = Some (VTuple x_steps)
    /\ out !! "y_size" = Some (VTuple y_size)
    /\ out !! "y_steps" = Some (VTuple y_steps)
    /\ x_size = take (Z.to_nat d) [a0; a1; a2]
    /\ x_steps = take (Z.to_nat d) [b0; b1; b2]
    /\ y_size = take (Z.to_nat d) [c0; c1; c2]
    /\ y_steps = take (Z.to_nat d) [e0; e1; e2]
    /\ Z.of_nat (List.length x_size) = d
    /\ Z.of_nat (List.length x_steps) = d
    /\ Z.of_nat (List.length y_size) = d
    /\ Z.of_nat (List.length y_steps) = d.
Proof.
  intros Hl Hrv Hdim Ha0 Ha1 Ha2 Hb0 Hb1 Hb2 Hc0 Hc1 Hc2 He0 He1 He2 Hd.
  destruct (structure_params_int_dim h l p d rv a0 a1 a2 b0 b1 b2 c0 c1 c2
              e0 e1 e2) as (out & Hrun & Hxs & Hxt & Hys & Hyt & _);
    try done.
  assert (Hstop : slice_stop 3 d = Z.to_nat d).
  { unfold slice_stop. destruct (Z.ltb_spec d 0); lia. }
  rewrite Hstop in *.
  exists out, (take (Z.to_nat d) [a0; a1; a2]), (take (Z.to_nat d) [b0; b1; b2]),
    (take (Z.to_nat d) [c0; c1; c2]), (take (Z.to_nat d) [e0; e1; e2]).
  do 5 (split; [assumption|]). do 4 (split; [reflexivity|]).
  repeat split; rewrite length_take; cbn [List.length]; lia.
Qed.

Lemma structure_params_truncates_witness :
  exists (out : gmap string value) (x_size x_steps y_size y_steps : list value),
    structure_params 0%nat [sample] = (inr 1%nat, [sample] ++ [out])
    /\ out !! "x_size" = Some (VTuple x_size)
    /\ out !! "x_steps" = Some (VTuple x_steps)
    /\ out !! "y_size" = Some (VTuple y_size)
    /\ out !! "y_steps" = Some (VTuple y_steps)
    /\ x_size = [VInt 100; VInt 8]
    /\ x_steps = [VInt 1; VInt 2]
    /\ y_size = [VInt 100; VInt 1]
    /\ y_steps = [VInt 1; VInt 1]
    /\ Z.of_nat (List.length x_size) = 2
    /\ Z.of_nat (List.length x_steps) = 2
    /\ Z.of_nat (List.length y_size) = 2
    /\ Z.of_nat (List.length y_steps) = 2.
Proof.
  apply (structure_params_truncates [sample] 0%nat sample 2 (VInt 12345)
           (VInt 100) (VInt 8) (VInt 77) (VInt 1) (VInt 2) (VInt 1)
           (VInt 100) (VInt 1) (VInt 77) (VInt 1) (VInt 1) (VInt 16));
    try (vm_compute; reflexivity).
  lia.
Defined.

(** C10: [dim] is not validated. Every integer [dim] is accepted; the four
    results are cut at [slice_stop 3 dim], which is the whole triple (length
    3) for every [dim] above 3 and the empty tuple for [dim = 0]. *)
Theorem structure_params_any_dim (h : heap) (l : loc) (p : gmap string value)
    (d : Z) (rv a0 a1 a2 b0 b1 b2 c0 c1 c2 e0 e1 e2 : value) :
  h !! l = Some p ->
  p !! "random_value" = Some rv ->
  p !! "dim" = Some (VInt d) ->
  p !! "k0" = Some a0 -> p !! "k1" = Some a1 -> p !! "k2" = Some a2 ->
  p !! "x_step_0" = Some b0 -> p !! "x_step_1" = Some b1 ->
  p !! "x_step_2" = Some b2 ->
  p !! "y_k0" = Some c0 -> p !! "y_k1" = Some c1 -> p !! "y_k2" = Some c2 ->
  p !! "y_step_0" = Some e0 -> p !! "y_step_1" = Some e1 ->
  p !! "y_step_2" = Some e2 ->
  exists (out : gmap string value) (x_size x_steps y_size y_steps : list value),
    structure_params l h = (inr (List.length h), h ++ [out])
    /\ out !! "x_size" = Some (VTuple x_size)
    /\ out !! "x_steps" = Some (VTuple x_steps)
    /\ out !! "y_size" = Some (VTuple y_size)
    /\ out !! "y_steps" = Some (VTuple y_steps)
    /\ (3 < d ->
          x_size = [a0; a1; a2] /\ x_steps = [b0; b1; b2] /\
          y_size = [c0; c1; c2] /\ y_steps = [e0; e1; e2])
    /\ (d = 0 -> x_size = [] /\ x_steps = [] /\ y_size = [] /\ y_steps = []).
Proof.
  intros Hl Hrv Hdim Ha0 Ha1 Ha2 Hb0 Hb1 Hb2 Hc0 Hc1 Hc2 He0 He1 He2.
  destruct (structure_params_int_dim h l p d rv a0 a1 a2 b0 b1 b2 c0 c1 c2
              e0 e1 e2) as (out & Hrun & Hxs & Hxt & Hys & Hyt & _);
    try done.
  exists out, (take (slice_stop 3 d) [a0; a1; a2]),
    (take (slice_stop 3 d) [b0; b1; b2]), (take (slice_stop 3 d) [c0; c1; c2]),
    (take (slice_stop 3 d) [e0; e1; e2]).
  do 5 (split; [assumption|]). split.
  - intros Hd. unfold slice_stop. destruct (Z.ltb_spec d 0); [lia|].
    by replace (Z.to_nat (Z.min d (Z.of_nat 3))) with 3%nat by lia.
  - by intros ->.
Qed.

Lemma structure_params_any_dim_witness :
  exists (out : gmap string value) (x_size x_steps y_size y_steps : list value),
    structure_params 0%nat [<["dim" := VInt 5]> sample] =
      (inr 1%nat, [<["dim" := VInt 5]> sample] ++ [out])
    /\ out !! "x_size" = Some (VTuple x_size)
    /\ out !! "x_steps" = Some (VTuple x_steps)
    /\ out !! "y_size" = Some (VTuple y_size)
    /\ out !! "y_steps" = Some (VTuple y_steps)
    /\ (3 < 5 ->
          x_size = [VInt 100; VInt 8; VInt 77] /\
          x_steps = [VInt 1; VInt 2; VInt 1] /\
          y_size = [VInt 100; VInt 1; VInt 77] /\
          y_steps = [VInt 1; VInt 1; VInt 16])
    /\ (5 = 0 -> x_size = [] /\ x_steps = [] /\ y_size = [] /\ y_steps = []).
Proof.
  apply (structure_params_any_dim [<["dim" := VInt 5]> sample] 0%nat
           (<["dim" := VInt 5]> sample) 5 (VInt 12345)
           (VInt 100) (VInt 8) (VInt 77) (VInt 1) (VInt 2) (VInt 1)
           (VInt 100) (VInt 1) (VInt 77) (VInt 1) (VInt 1) (VInt 16));
    vm_compute; reflexivity.
Defined.

(** A negative [dim] counts from the end, as Python slices do. *)
Example structure_params_negative_dim :
  exists out,
    outcome (structure_params 0%nat [<["dim" := VInt (-1)]> sample])
      = Some (inr out) /\
    out !! "x_size" = Some (VTuple [VInt 100; VInt 8]).
Proof. eexists. split; vm_compute; reflexivity. Qed.

Lemma derived_not_intermediate (k : string) :
  k ∈ derived -> intermediate k = false.
Proof.
  unfold derived. intros Hk.
  repeat (apply elem_of_cons in Hk as [->|Hk]; [reflexivity|]).
  by apply elem_of_nil in Hk.
Qed.

(** C4: whatever dictionary a call returns, it has no [random_value] and
    no key that starts with [k_any] or with [k_pow2]; and a call on a sample
    with every consumed name and an integer [dim] does return one. *)
Theorem structure_params_drops_intermediates
    (h : heap) (l : loc) (p : gmap string value) :
  h !! l = Some p ->
  (forall (r : loc) (h' : heap),
     structure_params l h = (inr r, h') ->
     exists out : gmap string value,
       h' !! r = Some out
       /\ out !! "random_value" = None
       /\ forall k,
            startswith k "k_any" = true \/ startswith k "k_pow2" = true ->
            out !! k = None)
  /\ ((forall k, k ∈ consumed -> is_Some (p !! k)) ->
      forall d : Z, p !! "dim" = Some (VInt d) ->
      exists (r : loc) (h' : heap), structure_params l h = (inr r, h')).
Proof.
  intros Hl. split.
  - intros r h' Hr.
    destruct (structure_params_returned h h' l r p Hl Hr) as (out & Hs & -> & ->).
    exists out. split; [by apply list_lookup_middle|].
    destruct Hs. split.
    + by rewrite !lookup_insert_ne, lookup_leftover by done.
    + intros k Hk.
      assert (Hi : intermediate k = true).
      { unfold intermediate. destruct Hk as [-> | ->]; [done|].
        apply orb_true_r. }
      rewrite !lookup_insert_ne.
      * by rewrite lookup_leftover, Hi.
      * intros <-. discriminate Hi.
      * intros <-. discriminate Hi.
      * intros <-. discriminate Hi.
      * intros <-. discriminate Hi.
  - intros Hall d Hdim.
    destruct (consumed_items p Hall)
      as (rv & dim & a0 & a1 & a2 & b0 & b1 & b2 & c0 & c1 & c2 & e0 & e1 & e2 &
          ? & Hd & ? & ? & ? & ? & ? & ? & ? & ? & ? & ? & ? & ?).
    rewrite Hdim in Hd. injection Hd as <-.
    destruct (structure_params_int_dim h l p d rv a0 a1 a2 b0 b1 b2 c0 c1 c2
                e0 e1 e2) as (out & Hrun & _); try done.
    by exists (List.length h), (h ++ [out]).
Qed.

Lemma structure_params_drops_intermediates_witness :
  (forall (r : loc) (h' : heap),
     structure_params 0%nat [sample] = (inr r, h') ->
     exists out : gmap string value,
       h' !! r = Some out
       /\ out !! "random_value" = None
       /\ forall k,
            startswith k "k_any" = true \/ startswith k "k_pow2" = true ->
            out !! k = None)
  /\ ((forall k, k ∈ consumed -> is_Some (sample !! k)) ->
      forall d : Z, sample !! "dim" = Some (VInt d) ->
      exists (r : loc) (h' : heap),
        structure_params 0%nat [sample] = (inr r, h')).
Proof.
  apply (structure_params_drops_intermediates [sample] 0%nat sample).
  reflexivity.
Defined.

Lemma slice_to_raises (t : list value) (d : value) (e : exn) :
  slice_to t d = inl e -> e = TypeError.
Proof. destruct d; cbn [slice_to]; congruence. Qed.

(** An exception of [structure_params] is the [KeyError] of a consumed name
    that the argument lacks, or the [TypeError] of the slice. *)
Lemma structured_raises (p : gmap string value) (e : exn) :
  structured p = inl e ->
  e = TypeError \/ exists k, k ∈ consumed /\ p !! k = None /\ e = KeyError k.
Proof.
  unfold structured. cbn [mapM]. intros H.
  repeat match type of H with
  | context [need p ?k] =>
      rewrite ?sum_assoc, need_bind in H;
      destruct (p !! k) eqn:?;
      [ repeat (rewrite ?sum_assoc, sum_ret in H)
      | injection H as <-; right; exists k;
        split; [unfold consumed; set_solver | done] ]
  | context [slice_to ?t ?d ≫= _] =>
      let E := fresh "E" in
      destruct (slice_to t d) eqn:E;
      [ rewrite sum_inl in H; injection H as <-;
        left; by apply slice_to_raises in E
      | rewrite sum_inr in H ]
  end.
  discriminate H.
Qed.

(** C5: when a consumed name is absent the call raises; it returns no
    dictionary, and the exception is the [KeyError] of an absent consumed
    name unless the slice has raised [TypeError] before that name was
    reached. *)
Theorem structure_params_missing_key
    (h : heap) (l : loc) (p : gmap string value) (k : string) :
  h !! l = Some p ->
  k ∈ consumed ->
  p !! k = None ->
  exists (e : exn) (h' : heap),
    structure_params l h = (inl e, h')
    /\ (e = TypeError \/
        exists k', k' ∈ consumed /\ p !! k' = None /\ e = KeyError k').
Proof.
  intros Hl Hk Hnone.
  destruct (structure_params_run h l p Hl) as (d' & Hrun & _).
  destruct (structured p) as [e|out] eqn:Hs.
  - exists e, (h ++ [d']). split; [done|]. by apply structured_raises.
  - apply structured_structures in Hs. destruct Hs.
    unfold consumed in Hk.
    repeat (apply elem_of_cons in Hk as [->|Hk]; [congruence|]).
    by apply elem_of_nil in Hk.
Qed.

Lemma structure_params_missing_key_witness :
  exists (e : exn) (h' : heap),
    structure_params 0%nat [sample_short] = (inl e, h')
    /\ (e = TypeError \/
        exists k', k' ∈ consumed /\ sample_short !! k' = None /\ e = KeyError k').
Proof.
  apply (structure_params_missing_key [sample_short] 0%nat sample_short "y_k1").
  - reflexivity.
  - unfold consumed. do 9 apply list_elem_of_further. apply list_elem_of_here.
  - vm_compute. reflexivity.
Defined.

Example sample_short_raises :
  outcome (structure_params 0%nat [sample_short]) = Some (inl (KeyError "y_k1")).
Proof. vm_compute. reflexivity. Qed.

(** A [dim] that cannot bound a slice raises [TypeError]. *)
Example structure_params_bad_dim :
  outcome (structure_params 0%nat [<["dim" := VStr "2"]> sample])
    = Some (inl TypeError).
Proof. vm_compute. reflexivity. Qed.

(** C7: a call leaves its argument as it was, with every item it had and
    no other, whether the call returns or raises; so it leaves every other
    object that existed before the call. *)
Theorem structure_params_preserves_input
    (h h' : heap) (l : loc) (p : gmap string value) (r : exn + loc) :
  h !! l = Some p ->
  structure_params l h = (r, h') ->
  h' !! l = Some p
  /\ forall (l0 : loc) (d0 : gmap string value),
       h !! l0 = Some d0 -> h' !! l0 = Some d0.
Proof.
  intros Hl Hr.
  destruct (structure_params_frame h h' l p r Hl Hr) as [d' ->].
  split; [|intros l0 d0 Hl0]; by apply lookup_app_l_Some.
Qed.

Lemma structure_params_preserves_input_witness :
  (structure_params 0%nat [sample_short]).2 !! 0%nat = Some sample_short
  /\ forall (l0 : loc) (d0 : gmap string value),
       [sample_short] !! l0 = Some d0 ->
       (structure_params 0%nat [sample_short]).2 !! l0 = Some d0.
Proof.
  apply (structure_params_preserves_input [sample_short]
           (structure_params 0%nat [sample_short]).2 0%nat sample_short
           (structure_params 0%nat [sample_short]).1).
  - reflexivity.
  - apply surjective_pairing.
Defined.

(** C6: two calls on the same argument, one after the other, give the same
    result: the same exception, or two dictionaries with the same items.
    The first result is still that when the second call has returned. *)
Theorem structure_params_deterministic
    (h h1 h2 : heap) (l : loc) (p : gmap string value) (r1 r2 : exn + loc) :
  h !! l = Some p ->
  structure_params l h = (r1, h1) ->
  structure_params l h1 = (r2, h2) ->
  exists o : exn + gmap string value,
    outcome (r1, h1) = Some o
    /\ outcome (r2, h2) = Some o
    /\ outcome (r1, h2) = Some o.
Proof.
  intros Hl H1 H2.
  destruct (structure_params_frame h h1 l p r1 Hl H1) as [d1 ->].
  assert (Hl1 : (h ++ [d1]) !! l = Some p) by by apply lookup_app_l_Some.
  pose proof (structure_params_outcome h l p Hl) as Ho1.
  pose proof (structure_params_outcome (h ++ [d1]) l p Hl1) as Ho2.
  rewrite H1 in Ho1. rewrite H2 in Ho2.
  exists (structured p). do 2 (split; [done|]).
  destruct r1 as [e|o1]; [done|]. cbn [outcome] in *.
  destruct ((h ++ [d1]) !! o1) as [out|] eqn:Hout; [|done].
  destruct (structure_params_frame _ h2 l p r2 Hl1 H2) as [d2 ->].
  by rewrite (lookup_app_l_Some _ _ _ _ Hout).
Qed.

Lemma structure_params_deterministic_witness :
  exists o : exn + gmap string value,
    outcome (inr 1%nat, [sample; sample_out]) = Some o
    /\ outcome (inr 2%nat, [sample; sample_out; sample_out]) = Some o
    /\ outcome (inr 1%nat, [sample; sample_out; sample_out]) = Some o.
Proof.
  apply (structure_params_deterministic [sample] [sample; sample_out]
           [sample; sample_out; sample_out] 0%nat sample).
  - reflexivity.
  - vm_compute. reflexivity.
  - vm_compute. reflexivity.
Defined.

(** ** The claims about the parameter space *)

Lemma max_dim_size_log2 (s : scale) :
  _MAX_DIM_SIZE s = 2 ^ int_log2 (_MAX_DIM_SIZE s) /\
  3 <= int_log2 (_MAX_DIM_SIZE s).
Proof. by destruct s. Qed.

Lemma pow_two_sizes_spec (s : scale) (n : Z) :
  n ∈ _POW_TWO_SIZES s <->
  is_power_of_two n /\ _MIN_DIM_SIZE <= n <= _MAX_DIM_SIZE s.
Proof.
  destruct (max_dim_size_log2 s) as [Hmax Hm].
  unfold _POW_TWO_SIZES, range. rewrite list_elem_of_fmap.
  change (int_log2 _MIN_DIM_SIZE) with 3.
  change _MIN_DIM_SIZE with (2 ^ 3).
  remember (int_log2 (_MAX_DIM_SIZE s)) as m eqn:Em. rewrite Hmax.
  clear Em Hmax. split.
  - intros (e & -> & He%elem_of_seqZ). split; [exists e; lia|].
    split; apply Z.pow_le_mono_r; lia.
  - intros ((e & He & ->) & Hlo & Hhi). exists e. split; [done|].
    apply elem_of_seqZ.
    apply Z.pow_le_mono_r_iff in Hlo; [|lia..].
    apply Z.pow_le_mono_r_iff in Hhi; lia.
Qed.

Lemma pow_two_sizes_NoDup (s : scale) : NoDup (_POW_TWO_SIZES s).
Proof.
  unfold _POW_TWO_SIZES, range. apply NoDup_fmap_2_strong; [|apply NoDup_seqZ].
  intros i j [Hi _]%elem_of_seqZ [Hj _]%elem_of_seqZ Hij.
  change (int_log2 _MIN_DIM_SIZE) with 3 in *.
  apply (Z.pow_inj_r 2); lia.
Qed.

Lemma axis_cases (i : Z) : 0 <= i < 3 -> i = 0 \/ i = 1 \/ i = 2.
Proof. lia. Qed.

(** C8: for every scale and axis, [k_pow2_i] is declared with a table whose
    outcomes are exactly the powers of two from [_MIN_DIM_SIZE] to
    [_MAX_DIM_SIZE] of the scale, both included, each once and each with
    the weight 1 / (number of outcomes); [_MIN_DIM_SIZE] is 8 and
    [_MAX_DIM_SIZE] is 128, 1024 and 16 * 1024^2. *)
Theorem k_pow2_distribution
    (seed : Z) (dtype : string) (cuda requires_grad : bool) (s : scale) (i : Z) :
  0 <= i < 3 ->
  exists table : list (choice * Q),
    parameter (BinaryOpFuzzer seed dtype cuda requires_grad s)
      ("k_pow2_" +:+ str i)
    = Some (FuzzedParameter.make ("k_pow2_" +:+ str i) None None
              (Weighted table) None)
    /\ NoDup table.*1
    /\ (forall c : choice,
          c ∈ table.*1 <->
          exists n, c = Value n /\ is_power_of_two n /\
                    _MIN_DIM_SIZE <= n <= _MAX_DIM_SIZE s)
    /\ (forall c w, (c, w) ∈ table ->
          w = (1 / inject_Z (Z.of_nat (List.length table)))%Q)
    /\ _MIN_DIM_SIZE = 8
    /\ _MAX_DIM_SIZE SMALL = 128
    /\ _MAX_DIM_SIZE MEDIUM = 1024
    /\ _MAX_DIM_SIZE LARGE = 16 * 1024 ^ 2.
Proof.
  intros Hi.
  exists ((fun size =>
    (Value size, 1 / inject_Z (Z.of_nat (List.length (_POW_TWO_SIZES s))))%Q)
    <$> _POW_TWO_SIZES s).
  split; [|split; [|split; [|split]]].
  - destruct (axis_cases i Hi) as [->|[->| ->]]; reflexivity.
  - rewrite <- list_fmap_compose.
    apply NoDup_fmap_2; [|apply pow_two_sizes_NoDup].
    by intros n1 n2 [= ->].
  - intros c. rewrite <- list_fmap_compose, list_elem_of_fmap.
    split.
    + intros (n & -> & Hn%pow_two_sizes_spec). by exists n.
    + intros (n & -> & Hn). exists n. split; [done|].
      by apply pow_two_sizes_spec.
  - intros c w (n & [= -> ->] & _)%list_elem_of_fmap.
    by rewrite length_fmap.
  - done.
Qed.

Lemma k_pow2_distribution_witness :
  exists table : list (choice * Q),
    parameter (BinaryOpFuzzer 0 "float32" false false SMALL) "k_pow2_1"
    = Some (FuzzedParameter.make "k_pow2_1" None None (Weighted table) None)
    /\ NoDup table.*1
    /\ (forall c : choice,
          c ∈ table.*1 <->
          exists n, c = Value n /\ is_power_of_two n /\
                    _MIN_DIM_SIZE <= n <= _MAX_DIM_SIZE SMALL)
    /\ (forall c w, (c, w) ∈ table ->
          w = (1 / inject_Z (Z.of_nat (List.length table)))%Q)
    /\ _MIN_DIM_SIZE = 8
    /\ _MAX_DIM_SIZE SMALL = 128
    /\ _MAX_DIM_SIZE MEDIUM = 1024
    /\ _MAX_DIM_SIZE LARGE = 16 * 1024 ^ 2.
Proof.
  apply (k_pow2_distribution 0 "float32" false false SMALL 1). lia.
Defined.

Example k_pow2_small :
  FuzzedParameter.distribution <$>
    parameter (BinaryOpFuzzer 0 "float32" false false SMALL) "k_pow2_0"
  = Some (Weighted [ (Value 8, 1 # 5); (Value 16, 1 # 5); (Value 32, 1 # 5);
                     (Value 64, 1 # 5); (Value 128, 1 # 5) ]%Q).
Proof. vm_compute. reflexivity. Qed.

Example pow_two_sizes_count :
  List.length (_POW_TWO_SIZES SMALL) = 5%nat /\
  List.length (_POW_TWO_SIZES MEDIUM) = 8%nat /\
  List.length (_POW_TWO_SIZES LARGE) = 22%nat.
Proof. by vm_compute. Qed.

(** C9: for every axis, [y_k_i] is declared strict with a table of exactly
    two outcomes, the alias of [k_i] with weight 0.8 and the value 1 with
    weight 0.2. *)
Theorem y_k_distribution
    (seed : Z) (dtype : string) (cuda requires_grad : bool) (s : scale) (i : Z) :
  0 <= i < 3 ->
  parameter (BinaryOpFuzzer seed dtype cuda requires_grad s) ("y_k" +:+ str i)
  = Some (FuzzedParameter.make ("y_k" +:+ str i) None None
            (Weighted [ (ParameterAlias ("k" +:+ str i), 0.8);
                        (Value 1, 0.2) ]%Q)
            (Some true)).
Proof.
  intros Hi. destruct (axis_cases i Hi) as [->|[->| ->]]; reflexivity.
Qed.

Lemma y_k_distribution_witness :
  parameter (BinaryOpFuzzer 0 "float32" false false LARGE) "y_k2"
  = Some (FuzzedParameter.make "y_k2" None None
            (Weighted [ (ParameterAlias "k2", 0.8); (Value 1, 0.2) ]%Q)
            (Some true)).
Proof.
  apply (y_k_distribution 0 "float32" false false LARGE 2). lia.
Defined.

(** C2, as the specification words it, fails: the request for [y] passes
    no [max_elements], so it does not carry the bound 32 * 1024^2 that the
    request for [x] carries. *)
Lemma y_request_has_no_max_elements :
  exists y : FuzzedTensor.t,
    tensor (BinaryOpFuzzer 0 "float32" false false LARGE) "y" = Some y
    /\ FuzzedTensor.max_elements y = None
    /\ FuzzedTensor.max_elements y <> Some (32 * 1024 ^ 2).
Proof. eexists. split; [reflexivity|]. by split. Qed.

(** C2 (amended): the request for [x] passes the element bounds
    [_MIN_ELEMENTS] of the scale (0, 128, 4096) and 32 * 1024^2 and the
    allocation cap 2 GiB; the request for [y] passes the same allocation
    cap and neither element bound. *)
Theorem tensor_requests
    (seed : Z) (dtype : string) (cuda requires_grad : bool) (s : scale) :
  exists x y : FuzzedTensor.t,
    Fuzzer.tensors (BinaryOpFuzzer seed dtype cuda requires_grad s) = [x; y]
    /\ FuzzedTensor.name x = "x"
    /\ FuzzedTensor.min_elements x = Some (_MIN_ELEMENTS s)
    /\ FuzzedTensor.max_elements x = Some (32 * 1024 ^ 2)
    /\ FuzzedTensor.max_allocation_bytes x = Some (2 * 1024 ^ 3)
    /\ FuzzedTensor.name y = "y"
    /\ FuzzedTensor.min_elements y = None
    /\ FuzzedTensor.max_elements y = None
    /\ FuzzedTensor.max_allocation_bytes y = Some (2 * 1024 ^ 3)
    /\ _MIN_ELEMENTS SMALL = 0
    /\ _MIN_ELEMENTS MEDIUM = 128
    /\ _MIN_ELEMENTS LARGE = 4096.
Proof. do 2 eexists. split; [reflexivity|]. by repeat split. Qed.

(** * Further properties of [structure_params] *)

Lemma slice_to_indexable (t s : list value) (d : value) :
  slice_to t d = inr s -> indexable d = true.
Proof. by destruct d. Qed.

Lemma indexable_slice_to (t : list value) (d : value) :
  indexable d = true -> exists s, slice_to t d = inr s.
Proof. destruct d; cbn [slice_to]; by eauto. Qed.

Lemma structures_consumed (p out : gmap string value) :
  structures p out -> forall k, k ∈ consumed -> is_Some (p !! k).
Proof.
  intros [] k Hk. unfold consumed in Hk.
  repeat (apply elem_of_cons in Hk as [->|Hk]; [by eexists|]).
  by apply elem_of_nil in Hk.
Qed.

Lemma structures_dim (p out : gmap string value) :
  structures p out ->
  exists dv, p !! "dim" = Some dv /\ indexable dv = true.
Proof. intros []. eexists. split; [done|]. by eapply slice_to_indexable. Qed.

Lemma consumed_structures (p : gmap string value) (dv : value) :
  (forall k, k ∈ consumed -> is_Some (p !! k)) ->
  p !! "dim" = Some dv ->
  indexable dv = true ->
  exists out, structures p out.
Proof.
  intros Hall Hdim Hdv.
  destruct (consumed_items p Hall)
    as (rv & dim & a0 & a1 & a2 & b0 & b1 & b2 & c0 & c1 & c2 & e0 & e1 & e2 &
        ? & Hd & ? & ? & ? & ? & ? & ? & ? & ? & ? & ? & ? & ?).
  rewrite Hdim in Hd. injection Hd as <-.
  destruct (indexable_slice_to [a0; a1; a2] dv Hdv) as [xs ?].
  destruct (indexable_slice_to [b0; b1; b2] dv Hdv) as [xt ?].
  destruct (indexable_slice_to [c0; c1; c2] dv Hdv) as [ys ?].
  destruct (indexable_slice_to [e0; e1; e2] dv Hdv) as [yt ?].
  eexists. by eapply structures_intro.
Qed.

(** X1: a call returns exactly when the argument has all fourteen names
    that are popped by name and its [dim] is an integer or [None]. *)
Theorem structure_params_returns_iff (h : heap) (l : loc) (p : gmap string value) :
  h !! l = Some p ->
  (exists (r : loc) (h' : heap), structure_params l h = (inr r, h')) <->
  (forall k, k ∈ consumed -> is_Some (p !! k)) /\
  exists dv, p !! "dim" = Some dv /\ indexable dv = true.
Proof.
  intros Hl. split.
  - intros (r & h' & Hr).
    destruct (structure_params_returned h h' l r p Hl Hr) as (out & Hs & _).
    split; [by eapply structures_consumed|by eapply structures_dim].
  - intros (Hall & dv & Hdim & Hdv).
    destruct (consumed_structures p dv Hall Hdim Hdv) as [out Hs].
    eexists _, _. by apply (structure_params_returns h l p out).
Qed.

Lemma structure_params_returns_iff_witness :
  (exists (r : loc) (h' : heap), structure_params 0%nat [sample] = (inr r, h')) <->
  (forall k, k ∈ consumed -> is_Some (sample !! k)) /\
  exists dv, sample !! "dim" = Some dv /\ indexable dv = true.
Proof.
  apply (structure_params_returns_iff [sample] 0%nat sample). reflexivity.
Defined.

(** X2: every call adds exactly one object to the heap, also when it
    raises; a returned reference is that new object, so it is never the
    argument nor any object that existed before the call. *)
Theorem structure_params_fresh
    (h h' : heap) (l : loc) (p : gmap string value) (r : exn + loc) :
  h !! l = Some p ->
  structure_params l h = (r, h') ->
  List.length h' = S (List.length h)
  /\ forall o : loc, r = inr o ->
       o = List.length h /\ o <> l /\ h !! o = None /\ is_Some (h' !! o).
Proof.
  intros Hl Hr.
  destruct (structure_params_run h l p Hl) as (d' & Hrun & _).
  rewrite Hr in Hrun. injection Hrun as -> ->.
  split; [rewrite length_app; cbn [List.length]; lia|].
  intros o Ho. destruct (structured p); [done|]. injection Ho as <-.
  apply lookup_lt_Some in Hl as Hlt.
  repeat split; [lia|by apply lookup_ge_None|].
  exists d'. by apply list_lookup_middle.
Qed.

Lemma structure_params_fresh_witness :
  List.length [sample; sample_out] = S (List.length [sample])
  /\ forall o : loc, inr 1%nat = inr (A := exn) o ->
       o = List.length [sample] /\ o <> 0%nat /\ [sample] !! o = None /\
       is_Some ([sample; sample_out] !! o).
Proof.
  apply (structure_params_fresh [sample] [sample; sample_out] 0%nat sample
           (inr 1%nat)).
  - reflexivity.
  - vm_compute. reflexivity.
Defined.

Lemma structures_lookup_rest (p out : gmap string value) (k : string) :
  structures p out -> k ∉ derived -> out !! k = leftover p !! k.
Proof.
  intros [] Hk. unfold derived in Hk.
  rewrite !lookup_insert_ne; [done|..]; intros <-; apply Hk; set_solver.
Qed.

(** X3: in the returned dictionary, an item under a name other than the
    four derived ones is an item of the argument, with its value, whose name
    is neither popped by name nor of an intermediate family; and every such
    item of the argument is in it. *)
Theorem structure_params_passes_through
    (h h' : heap) (l r : loc) (p out : gmap string value) (k : string) (v : value) :
  h !! l = Some p ->
  structure_params l h = (inr r, h') ->
  h' !! r = Some out ->
  k ∉ derived ->
  out !! k = Some v <->
  p !! k = Some v /\ intermediate k = false /\ k ∉ consumed.
Proof.
  intros Hl Hr Hout Hk.
  destruct (structure_params_returned h h' l r p Hl Hr) as (out' & Hs & -> & ->).
  rewrite list_lookup_middle in Hout by done. injection Hout as ->.
  rewrite (structures_lookup_rest p out k Hs Hk), lookup_leftover.
  destruct (intermediate k); [intuition congruence|].
  case_decide; intuition congruence.
Qed.

Lemma structure_params_passes_through_witness :
  (<["x_size" := VTuple [VInt 100; VInt 8]]>
     (<["alpha" := VInt 7]> sample_out)) !! "alpha" = Some (VInt 7) <->
  sample_extra !! "alpha" = Some (VInt 7) /\
  intermediate "alpha" = false /\ "alpha" ∉ consumed.
Proof.
  apply (structure_params_passes_through [sample_extra]
           [sample_extra;
            <["x_size" := VTuple [VInt 100; VInt 8]]>
              (<["alpha" := VInt 7]> sample_out)]
           0%nat 1%nat sample_extra).
  - reflexivity.
  - vm_compute. reflexivity.
  - reflexivity.
  - unfold derived. intros H.
    repeat (apply elem_of_cons in H as [H|H]; [discriminate H|]).
    by apply elem_of_nil in H.
Defined.

Lemma slice_to_length (t1 t2 s1 s2 : list value) (d : value) :
  List.length t1 = List.length t2 ->
  slice_to t1 d = inr s1 ->
  slice_to t2 d = inr s2 ->
  List.length s1 = List.length s2 /\ (List.length s1 <= List.length t1)%nat.
Proof.
  intros Ht H1 H2. destruct d; cbn [slice_to] in *; try discriminate.
  - injection H1 as <-. injection H2 as <-.
    rewrite !length_take, Ht. lia.
  - injection H1 as <-. injection H2 as <-. lia.
Qed.

(** X4: in every returned dictionary the four derived names hold tuples of
    one common length, at most 3, whatever the argument held under those
    four names. *)
Theorem structure_params_equal_lengths
    (h h' : heap) (l r : loc) (p out : gmap string value) :
  h !! l = Some p ->
  structure_params l h = (inr r, h') ->
  h' !! r = Some out ->
  exists x_size x_steps y_size y_steps : list value,
    out !! "x_size" = Some (VTuple x_size)
    /\ out !! "x_steps" = Some (VTuple x_steps)
    /\ out !! "y_size" = Some (VTuple y_size)
    /\ out !! "y_steps" = Some (VTuple y_steps)
    /\ List.length x_steps = List.length x_size
    /\ List.length y_size = List.length x_size
    /\ List.length y_steps = List.length x_size
    /\ (List.length x_size <= 3)%nat.
Proof.
  intros Hl Hr Hout.
  destruct (structure_params_returned h h' l r p Hl Hr) as (out' & Hs & -> & ->).
  rewrite list_lookup_middle in Hout by done. injection Hout as ->.
  destruct Hs as [rv dim a0 a1 a2 b0 b1 b2 c0 c1 c2 e0 e1 e2 xs xt ys yt
    _ _ _ _ _ _ _ _ _ _ _ _ _ _ Hxs Hxt Hys Hyt].
  exists xs, xt, ys, yt.
  destruct (slice_to_length [a0; a1; a2] [b0; b1; b2] xs xt dim eq_refl Hxs Hxt)
    as [E1 Hle].
  destruct (slice_to_length [a0; a1; a2] [c0; c1; c2] xs ys dim eq_refl Hxs Hys)
    as [E2 _].
  destruct (slice_to_length [a0; a1; a2] [e0; e1; e2] xs yt dim eq_refl Hxs Hyt)
    as [E3 _].
  do 4 (split; [lookup_derived|]). by rewrite <- E1, <- E2, <- E3.
Qed.

Lemma structure_params_equal_lengths_witness :
  exists x_size x_steps y_size y_steps : list value,
    sample_out !! "x_size" = Some (VTuple x_size)
    /\ sample_out !! "x_steps" = Some (VTuple x_steps)
    /\ sample_out !! "y_size" = Some (VTuple y_size)
    /\ sample_out !! "y_steps" = Some (VTuple y_steps)
    /\ List.length x_steps = List.length x_size
    /\ List.length y_size = List.length x_size
    /\ List.length y_steps = List.length x_size
    /\ (List.length x_size <= 3)%nat.
Proof.
  apply (structure_params_equal_lengths [sample_shadowed]
           [sample_shadowed; sample_out] 0%nat 1%nat sample_shadowed).
  - reflexivity.
  - vm_compute. reflexivity.
  - reflexivity.
Defined.

Lemma structures_no_random_value (p out : gmap string value) :
  structures p out -> out !! "random_value" = None.
Proof. intros []. by rewrite !lookup_insert_ne, lookup_leftover by done. Qed.

Lemma structured_no_random_value (p : gmap string value) :
  p !! "random_value" = None ->
  structured p = inl (KeyError "random_value").
Proof. intros Hp. unfold structured. by rewrite need_bind, Hp. Qed.

(** X5: a returned dictionary is not an argument for a second pass: the
    call on it raises [KeyError] for [random_value]. *)
Theorem structure_params_not_idempotent
    (h h' : heap) (l r : loc) (p : gmap string value) :
  h !! l = Some p ->
  structure_params l h = (inr r, h') ->
  exists h'' : heap,
    structure_params r h' = (inl (KeyError "random_value"), h'').
Proof.
  intros Hl Hr.
  destruct (structure_params_returned h h' l r p Hl Hr) as (out & Hs & -> & ->).
  assert (Hout : (h ++ [out]) !! List.length h = Some out)
    by by apply list_lookup_middle.
  destruct (structure_params_run _ _ _ Hout) as (d' & Hrun & _).
  rewrite (structured_no_random_value out) in Hrun
    by by eapply structures_no_random_value.
  by exists ((h ++ [out]) ++ [d']).
Qed.

Lemma structure_params_not_idempotent_witness :
  exists h'' : heap,
    structure_params 1%nat [sample; sample_out]
    = (inl (KeyError "random_value"), h'').
Proof.
  apply (structure_params_not_idempotent [sample] [sample; sample_out]
           0%nat 1%nat sample).
  - reflexivity.
  - vm_compute. reflexivity.
Defined.

Lemma structure_params_raises (h : heap) (l : loc) (p : gmap string value) (e : exn) :
  h !! l = Some p ->
  (exists h', structure_params l h = (inl e, h')) <-> structured p = inl e.
Proof.
  intros Hl. destruct (structure_params_run h l p Hl) as (d' & Hrun & _).
  rewrite Hrun. destruct (structured p) as [e'|out].
  - split; [by intros (h' & [= -> _])|intros [= ->]; by eexists].
  - split; [by intros (h' & [=])|done].
Qed.

Lemma first_absent_None (p : gmap string value) (ks : list string) (k : string) :
  first_absent p ks = Some k -> k ∈ ks /\ p !! k = None.
Proof.
  unfold first_absent. intros [Hin Hk]%find_some.
  split; [by apply list_elem_of_In|by apply bool_decide_eq_true_1 in Hk].
Qed.

Lemma first_absent_structured (p : gmap string value) (k : string) :
  first_absent p consumed = Some k ->
  k ∈ popped_before_slice \/
    (exists dv, p !! "dim" = Some dv /\ indexable dv = true) ->
  structured p = inl (KeyError k).
Proof.
  intros Hk Hd. destruct (first_absent_None p consumed k Hk) as [_ Hnone].
  revert Hk. unfold first_absent, consumed, structured. cbn [mapM find].
  intros Hk.
  repeat match goal with
  | |- context [need p ?k'] =>
      rewrite ?sum_assoc, need_bind;
      let E := fresh "E" in
      destruct (p !! k') eqn:E;
      [ rewrite bool_decide_eq_false_2 in Hk by done;
        repeat (rewrite ?sum_assoc, sum_ret)
      | rewrite bool_decide_eq_true_2 in Hk by done; by injection Hk as <- ]
  | |- context [slice_to ?t ?d ≫= _] =>
      let E := fresh "E" in
      destruct (slice_to t d) eqn:E; [|rewrite sum_inr]
  end.
  all: try discriminate Hk.
  all: exfalso; destruct Hd as [Hin|(dv & Hdv & Hi)];
    [ unfold popped_before_slice in Hin;
      repeat (apply elem_of_cons in Hin as [->|Hin]; [congruence|]);
      by apply elem_of_nil in Hin
    | simplify_eq ].
  all: match goal with
       | E : slice_to ?t ?d = inl _ |- _ =>
           destruct (indexable_slice_to t d Hi) as [? ?]; congruence
       end.
Qed.

(** X6: when a name popped by name is absent, the exception is the
    [KeyError] of the first absent name in pop order, provided the slice is
    not reached before it or [dim] can bound a slice. *)
Theorem structure_params_first_absent
    (h : heap) (l : loc) (p : gmap string value) (k : string) :
  h !! l = Some p ->
  first_absent p consumed = Some k ->
  k ∈ popped_before_slice \/
    (exists dv, p !! "dim" = Some dv /\ indexable dv = true) ->
  exists h' : heap, structure_params l h = (inl (KeyError k), h').
Proof.
  intros Hl Hk Hd. apply (structure_params_raises h l p _ Hl).
  by apply first_absent_structured.
Qed.

Lemma structure_params_first_absent_witness :
  exists h' : heap,
    structure_params 0%nat [sample_two_short] = (inl (KeyError "y_k1"), h').
Proof.
  apply (structure_params_first_absent [sample_two_short] 0%nat
           sample_two_short "y_k1").
  - reflexivity.
  - vm_compute. reflexivity.
  - right. exists (VInt 2). split; vm_compute; reflexivity.
Defined.

Lemma slice_to_not_indexable (t : list value) (d : value) :
  indexable d = false -> slice_to t d = inl TypeError.
Proof. by destruct d. Qed.

Lemma structured_type_error (p : gmap string value) :
  structured p = inl TypeError <->
  (forall k, k ∈ popped_before_slice -> is_Some (p !! k)) /\
  exists dv, p !! "dim" = Some dv /\ indexable dv = false.
Proof.
  split.
  - unfold structured. cbn [mapM]. intros H.
    repeat match type of H with
    | context [need p ?k] =>
        rewrite ?sum_assoc, need_bind in H;
        destruct (p !! k) eqn:?; [|discriminate H];
        repeat (rewrite ?sum_assoc, sum_ret in H)
    | context [slice_to ?t ?d ≫= _] =>
        let E := fresh "E" in
        destruct (slice_to t d) eqn:E;
        [ rewrite sum_inl in H | rewrite sum_inr in H ]
    end.
    all: try discriminate H.
    all: match goal with
         | E : slice_to _ ?d = inl _ |- _ =>
             assert (Hi : indexable d = false)
               by (destruct d; first [done | discriminate E])
         end.
    all: split;
      [ intros k Hk; unfold popped_before_slice in Hk;
        repeat (apply elem_of_cons in Hk as [->|Hk]; [by eexists|]);
        by apply elem_of_nil in Hk
      | by eexists ].
  - intros (Hall & dv & Hdim & Hi).
    assert (Hf : Forall (fun k => is_Some (p !! k)) popped_before_slice)
      by (apply list.Forall_forall; intros k Hk; by apply Hall).
    unfold popped_before_slice in Hf.
    repeat match goal with
    | Hf : Forall _ (_ :: _) |- _ => apply Forall_cons in Hf as [[? ?] Hf]
    end.
    simplify_eq. unfold structured. cbn [mapM].
    repeat (rewrite ?sum_assoc, need_bind;
            match goal with
            | H : p !! ?k = Some _ |- context [p !! ?k] => rewrite H
            end;
            repeat (rewrite ?sum_assoc, sum_ret)).
    by rewrite ?sum_assoc, slice_to_not_indexable, sum_inl by done.
Qed.

(** X7: a call raises [TypeError] exactly when [random_value], [dim], [k0],
    [k1] and [k2] are present and [dim] is neither an integer nor [None],
    whatever else the argument has or lacks. *)
Theorem structure_params_type_error (h : heap) (l : loc) (p : gmap string value) :
  h !! l = Some p ->
  (exists h' : heap, structure_params l h = (inl TypeError, h')) <->
  (forall k, k ∈ popped_before_slice -> is_Some (p !! k)) /\
  exists dv, p !! "dim" = Some dv /\ indexable dv = false.
Proof.
  intros Hl. rewrite (structure_params_raises h l p _ Hl).
  apply structured_type_error.
Qed.

Lemma structure_params_type_error_witness :
  (exists h' : heap,
     structure_params 0%nat [<["dim" := VStr "2"]> sample_two_short]
     = (inl TypeError, h')) <->
  (forall k, k ∈ popped_before_slice ->
     is_Some ((<["dim" := VStr "2"]> sample_two_short) !! k)) /\
  exists dv, (<["dim" := VStr "2"]> sample_two_short) !! "dim" = Some dv /\
             indexable dv = false.
Proof.
  apply (structure_params_type_error [<["dim" := VStr "2"]> sample_two_short]
           0%nat (<["dim" := VStr "2"]> sample_two_short)).
  reflexivity.
Defined.

(** X8: with [dim] equal to [None] the slices keep everything: the call
    returns and the four derived items are the whole triples. *)
Theorem structure_params_dim_none (h : heap) (l : loc) (p : gmap string value)
    (rv a0 a1 a2 b0 b1 b2 c0 c1 c2 e0 e1 e2 : value) :
  h !! l = Some p ->
  p !! "random_value" = Some rv ->
  p !! "dim" = Some VNone ->
  p !! "k0" = Some a0 -> p !! "k1" = Some a1 -> p !! "k2" = Some a2 ->
  p !! "x_step_0" = Some b0 -> p !! "x_step_1" = Some b1 ->
  p !! "x_step_2" = Some b2 ->
  p !! "y_k0" = Some c0 -> p !! "y_k1" = Some c1 -> p !! "y_k2" = Some c2 ->
  p !! "y_step_0" = Some e0 -> p !! "y_step_1" = Some e1 ->
  p !! "y_step_2" = Some e2 ->
  exists out : gmap string value,
    structure_params l h = (inr (List.length h), h ++ [out])
    /\ out !! "x_size" = Some (VTuple [a0; a1; a2])
    /\ out !! "x_steps" = Some (VTuple [b0; b1; b2])
    /\ out !! "y_size" = Some (VTuple [c0; c1; c2])
    /\ out !! "y_steps" = Some (VTuple [e0; e1; e2]).
Proof.
  intros Hl; intros.
  eexists. split.
  { apply (structure_params_returns h l p _ Hl).
    eapply structures_intro; try eassumption; reflexivity. }
  repeat split; lookup_derived.
Qed.

Lemma structure_params_dim_none_witness :
  exists out : gmap string value,
    structure_params 0%nat [<["dim" := VNone]> sample]
    = (inr 1%nat, [<["dim" := VNone]> sample] ++ [out])
    /\ out !! "x_size" = Some (VTuple [VInt 100; VInt 8; VInt 77])
    /\ out !! "x_steps" = Some (VTuple [VInt 1; VInt 2; VInt 1])
    /\ out !! "y_size" = Some (VTuple [VInt 100; VInt 1; VInt 77])
    /\ out !! "y_steps" = Some (VTuple [VInt 1; VInt 1; VInt 16]).
Proof.
  apply (structure_params_dim_none [<["dim" := VNone]> sample] 0%nat
           (<["dim" := VNone]> sample) (VInt 12345)
           (VInt 100) (VInt 8) (VInt 77) (VInt 1) (VInt 2) (VInt 1)
           (VInt 100) (VInt 1) (VInt 77) (VInt 1) (VInt 1) (VInt 16));
    vm_compute; reflexivity.
Defined.

(** X9: a negative [dim] counts from the end: the four derived items are
    the first [3 + dim] items of the triples, so the first two for -1, the
    first one for -2 and nothing from -3 downwards. *)
Theorem structure_params_negative_dim_cut
    (h : heap) (l : loc) (p : gmap string value)
    (d : Z) (rv a0 a1 a2 b0 b1 b2 c0 c1 c2 e0 e1 e2 : value) :
  h !! l = Some p ->
  p !! "random_value" = Some rv ->
  p !! "dim" = Some (VInt d) ->
  p !! "k0" = Some a0 -> p !! "k1" = Some a1 -> p !! "k2" = Some a2 ->
  p !! "x_step_0" = Some b0 -> p !! "x_step_1" = Some b1 ->
  p !! "x_step_2" = Some b2 ->
  p !! "y_k0" = Some c0 -> p !! "y_k1" = Some c1 -> p !! "y_k2" = Some c2 ->
  p !! "y_step_0" = Some e0 -> p !! "y_step_1" = Some e1 ->
  p !! "y_step_2" = Some e2 ->
  d < 0 ->
  exists out : gmap string value,
    structure_params l h = (inr (List.length h), h ++ [out])
    /\ out !! "x_size" = Some (VTuple (take (Z.to_nat (3 + d)) [a0; a1; a2]))
    /\ out !! "x_steps" = Some (VTuple (take (Z.to_nat (3 + d)) [b0; b1; b2]))
    /\ out !! "y_size" = Some (VTuple (take (Z.to_nat (3 + d)) [c0; c1; c2]))
    /\ out !! "y_steps" = Some (VTuple (take (Z.to_nat (3 + d)) [e0; e1; e2])).
Proof.
  intros Hl Hrv Hdim Ha0 Ha1 Ha2 Hb0 Hb1 Hb2 Hc0 Hc1 Hc2 He0 He1 He2 Hd.
  destruct (structure_params_int_dim h l p d rv a0 a1 a2 b0 b1 b2 c0 c1 c2
              e0 e1 e2) as (out & Hrun & Hxs & Hxt & Hys & Hyt & _);
    try done.
  assert (Hstop : slice_stop 3 d = Z.to_nat (3 + d)).
  { unfold slice_stop. destruct (Z.ltb_spec d 0); lia. }
  rewrite Hstop in *. by exists out.
Qed.

Lemma structure_params_negative_dim_cut_witness :
  exists out : gmap string value,
    structure_params 0%nat [<["dim" := VInt (-2)]> sample]
    = (inr 1%nat, [<["dim" := VInt (-2)]> sample] ++ [out])
    /\ out !! "x_size" = Some (VTuple [VInt 100])
    /\ out !! "x_steps" = Some (VTuple [VInt 1])
    /\ out !! "y_size" = Some (VTuple [VInt 100])
    /\ out !! "y_steps" = Some (VTuple [VInt 1]).
Proof.
  apply (structure_params_negative_dim_cut [<["dim" := VInt (-2)]> sample]
           0%nat (<["dim" := VInt (-2)]> sample) (-2) (VInt 12345)
           (VInt 100) (VInt 8) (VInt 77) (VInt 1) (VInt 2) (VInt 1)
           (VInt 100) (VInt 1) (VInt 77) (VInt 1) (VInt 1) (VInt 16));
    vm_compute; reflexivity.
Defined.

Lemma need_agree (p p' : gmap string value) (k : string) :
  p !! k = p' !! k -> need p k = need p' k.
Proof. unfold need. by intros ->. Qed.

Lemma structured_agree (p p' : gmap string value) :
  (is_Some (p !! "random_value") <-> is_Some (p' !! "random_value")) ->
  (forall k, k <> "random_value" -> intermediate k = false -> p !! k = p' !! k) ->
  structured p = structured p'.
Proof.
  intros Hrv Hagree.
  assert (Hleft : leftover p = leftover p').
  { apply map_eq; intros k. rewrite !lookup_leftover.
    destruct (intermediate k) eqn:Hi; [done|].
    case_decide as Hc; [done|]. apply Hagree; [|done].
    intros ->. apply Hc. unfold consumed. apply list_elem_of_here. }
  unfold structured. cbn [mapM]. rewrite Hleft.
  rewrite !(need_agree p p' "dim"), !(need_agree p p' "k0"),
    !(need_agree p p' "k1"), !(need_agree p p' "k2"),
    !(need_agree p p' "x_step_0"), !(need_agree p p' "x_step_1"),
    !(need_agree p p' "x_step_2"), !(need_agree p p' "y_k0"),
    !(need_agree p p' "y_k1"), !(need_agree p p' "y_k2"),
    !(need_agree p p' "y_step_0"), !(need_agree p p' "y_step_1"),
    !(need_agree p p' "y_step_2") by by apply Hagree.
  rewrite !need_bind.
  destruct (p !! "random_value") as [v|], (p' !! "random_value") as [v'|];
    try done.
  - destruct Hrv as [Hrv _]. by destruct Hrv.
  - destruct Hrv as [_ Hrv]. by destruct Hrv.
Qed.

(** X10: the result depends on the argument only through its items outside
    the intermediate families, and on [random_value] only through its
    presence: two arguments that agree there give the same dictionary or
    the same exception. *)
Theorem structure_params_ignores_intermediates
    (h h' : heap) (l l' : loc) (p p' : gmap string value) :
  h !! l = Some p ->
  h' !! l' = Some p' ->
  (is_Some (p !! "random_value") <-> is_Some (p' !! "random_value")) ->
  (forall k, k <> "random_value" -> intermediate k = false -> p !! k = p' !! k) ->
  outcome (structure_params l h) = outcome (structure_params l' h')
  /\ is_Some (outcome (structure_params l h)).
Proof.
  intros Hl Hl' Hrv Hagree.
  rewrite (structure_params_outcome h l p Hl),
    (structure_params_outcome h' l' p' Hl').
  by rewrite (structured_agree p p' Hrv Hagree).
Qed.

Lemma structure_params_ignores_intermediates_witness :
  outcome (structure_params 0%nat [sample])
  = outcome (structure_params 1%nat [sample_out; sample_reseeded])
  /\ is_Some (outcome (structure_params 0%nat [sample])).
Proof.
  apply (structure_params_ignores_intermediates [sample]
           [sample_out; sample_reseeded] 0%nat 1%nat sample sample_reseeded).
  - reflexivity.
  - reflexivity.
  - split; intros _; eexists; vm_compute; reflexivity.
  - intros k Hk Hi. unfold sample_reseeded.
    rewrite lookup_delete_ne by (intros <-; discriminate Hi).
    by rewrite lookup_insert_ne.
Defined.

(** * Further properties of the parameter space *)

Lemma structures_dom (p out : gmap string value) :
  structures p out -> dom out = list_to_set derived ∪ dom (leftover p).
Proof.
  intros []. rewrite !dom_insert_L. apply set_eq; intros k.
  rewrite !elem_of_union, elem_of_list_to_set, !elem_of_singleton.
  unfold derived. rewrite !elem_of_cons, elem_of_nil. tauto.
Qed.

(** X11: whatever the arguments, the declared names are pairwise distinct,
    and they are the fourteen names that [structure_params] pops by name
    together with six names of the two intermediate families. *)
Theorem declared_names_distinct
    (seed : Z) (dtype : string) (cuda requires_grad : bool) (s : scale) :
  NoDup (FuzzedParameter.name <$>
           declared (BinaryOpFuzzer seed dtype cuda requires_grad s))
  /\ (FuzzedParameter.name <$>
        declared (BinaryOpFuzzer seed dtype cuda requires_grad s))
     ≡ₚ declared_names
  /\ Forall (fun k => intermediate k = true <-> k ∉ consumed)
       (FuzzedParameter.name <$>
          declared (BinaryOpFuzzer seed dtype cuda requires_grad s)).
Proof.
  assert (Hnames :
    FuzzedParameter.name <$>
      declared (BinaryOpFuzzer seed dtype cuda requires_grad s)
    = ["dim"; "k_any_0"; "k_any_1"; "k_any_2"; "k_pow2_0"; "k_pow2_1";
       "k_pow2_2"; "k0"; "k1"; "k2"; "y_k0"; "y_k1"; "y_k2"; "x_step_0";
       "y_step_0"; "x_step_1"; "y_step_1"; "x_step_2"; "y_step_2";
       "random_value"]) by by destruct s.
  rewrite Hnames. split; [|split].
  - apply (bool_decide_unpack _). by vm_compute.
  - apply (bool_decide_unpack _). by vm_compute.
  - repeat (apply Forall_cons; split;
      [ split; [ intros Hi; try discriminate Hi;
                 apply (bool_decide_unpack _); by vm_compute
               | intros Hc; try reflexivity; exfalso; apply Hc;
                 apply (bool_decide_unpack _); by vm_compute ] |]).
    constructor.
Qed.

Lemma declared_name_list
    (seed : Z) (dtype : string) (cuda requires_grad : bool) (s : scale) :
  FuzzedParameter.name <$>
    declared (BinaryOpFuzzer seed dtype cuda requires_grad s)
  = ["dim"; "k_any_0"; "k_any_1"; "k_any_2"; "k_pow2_0"; "k_pow2_1";
     "k_pow2_2"; "k0"; "k1"; "k2"; "y_k0"; "y_k1"; "y_k2"; "x_step_0";
     "y_step_0"; "x_step_1"; "y_step_1"; "x_step_2"; "y_step_2";
     "random_value"].
Proof. by destruct s. Qed.

(** X12: a sample whose keys are exactly the names that the fuzzer declares,
    with an integer [dim], is structured to a dictionary with exactly the
    four derived keys. *)
Theorem structure_params_of_declared
    (seed : Z) (dtype : string) (cuda requires_grad : bool) (s : scale)
    (h : heap) (l : loc) (p : gmap string value) (d : Z) :
  h !! l = Some p ->
  dom p = list_to_set (FuzzedParameter.name <$>
            declared (BinaryOpFuzzer seed dtype cuda requires_grad s)) ->
  p !! "dim" = Some (VInt d) ->
  exists out : gmap string value,
    structure_params l h = (inr (List.length h), h ++ [out])
    /\ dom out = list_to_set derived.
Proof.
  intros Hl Hdom Hdim. rewrite declared_name_list in Hdom.
  assert (Hin : forall k, is_Some (p !! k) <->
    k ∈ ["dim"; "k_any_0"; "k_any_1"; "k_any_2"; "k_pow2_0"; "k_pow2_1";
         "k_pow2_2"; "k0"; "k1"; "k2"; "y_k0"; "y_k1"; "y_k2"; "x_step_0";
         "y_step_0"; "x_step_1"; "y_step_1"; "x_step_2"; "y_step_2";
         "random_value"]).
  { intros k. by rewrite <- elem_of_dom, Hdom, elem_of_list_to_set. }
  assert (Hall : forall k, k ∈ consumed -> is_Some (p !! k)).
  { intros k Hk. apply Hin. unfold consumed in Hk.
    repeat (apply elem_of_cons in Hk as [->|Hk];
            [apply (bool_decide_unpack _); by vm_compute|]).
    by apply elem_of_nil in Hk. }
  destruct (consumed_structures p (VInt d) Hall Hdim eq_refl) as [out Hs].
  exists out. split; [exact (structure_params_returns h l p out Hl Hs)|].
  rewrite (structures_dom p out Hs), dom_leftover.
  apply set_eq; intros k.
  rewrite elem_of_union, elem_of_filter, elem_of_dom, Hin.
  split; [|by left]. intros [?|[[Hi Hc] Hk]]; [done|]. exfalso.
  repeat (apply elem_of_cons in Hk as [->|Hk];
          [first [discriminate Hi
                 | apply Hc; apply (bool_decide_unpack _); by vm_compute]|]).
  by apply elem_of_nil in Hk.
Qed.

Lemma structure_params_of_declared_witness :
  exists out : gmap string value,
    structure_params 0%nat [sample] = (inr 1%nat, [sample] ++ [out])
    /\ dom out = list_to_set derived.
Proof.
  apply (structure_params_of_declared 0 "float32" false false MEDIUM
           [sample] 0%nat sample 2).
  - reflexivity.
  - apply (bool_decide_unpack _). vm_compute. exact I.
  - vm_compute. reflexivity.
Defined.

Lemma aliases_resolve_sound (qs : list FuzzedParameter.t) :
  forall (seen : list string) (i : nat) (q : FuzzedParameter.t) (a : string),
    aliases_resolve seen qs = true ->
    qs !! i = Some q ->
    a ∈ aliases q ->
    a ∈ seen \/
    exists (j : nat) (q' : FuzzedParameter.t),
      (j < i)%nat /\ qs !! j = Some q' /\ FuzzedParameter.name q' = a.
Proof.
  induction qs as [|q0 qs IH]; intros seen i q a Hres Hq Ha; [done|].
  cbn [aliases_resolve] in Hres.
  apply andb_true_iff in Hres as [Hhere Hrest].
  destruct i as [|i]; cbn in Hq.
  - injection Hq as ->. left.
    rewrite forallb_forall in Hhere.
    eapply bool_decide_eq_true_1, Hhere. by apply list_elem_of_In.
  - destruct (IH _ i q a Hrest Hq Ha) as [Hs|(j & q' & Hj & Hq' & Hn)].
    + apply elem_of_cons in Hs as [->|Hs]; [|by left].
      right. exists 0%nat, q0. split; [lia|done].
    + right. exists (S j), q'. split; [lia|done].
Qed.

(** X13: every alias in a declared table names a parameter that is declared
    earlier in the list, so aliases neither dangle nor form a cycle. *)
Theorem aliases_declared_before
    (seed : Z) (dtype : string) (cuda requires_grad : bool) (s : scale)
    (i : nat) (q : FuzzedParameter.t) (a : string) :
  declared (BinaryOpFuzzer seed dtype cuda requires_grad s) !! i = Some q ->
  a ∈ aliases q ->
  exists (j : nat) (q' : FuzzedParameter.t),
    (j < i)%nat
    /\ declared (BinaryOpFuzzer seed dtype cuda requires_grad s) !! j = Some q'
    /\ FuzzedParameter.name q' = a.
Proof.
  intros Hq Ha.
  assert (Hres : aliases_resolve []
    (declared (BinaryOpFuzzer seed dtype cuda requires_grad s)) = true)
    by (destruct s; vm_compute; reflexivity).
  destruct (aliases_resolve_sound _ [] i q a Hres Hq Ha) as [Hnil|H]; [|done].
  by apply elem_of_nil in Hnil.
Qed.

Lemma aliases_declared_before_witness :
  exists (j : nat) (q' : FuzzedParameter.t),
    (j < 11)%nat
    /\ declared (BinaryOpFuzzer 0 "float32" false false SMALL) !! j = Some q'
    /\ FuzzedParameter.name q' = "k1".
Proof.
  apply (aliases_declared_before 0 "float32" false false SMALL 11
           (FuzzedParameter.make "y_k1" None None
              (Weighted [ (ParameterAlias "k1", 0.8); (Value 1, 0.2) ]%Q)
              (Some true))).
  - vm_compute. reflexivity.
  - vm_compute. apply list_elem_of_here.
Defined.

(** X14: both tensor requests name three size parameters, three step
    parameters and a dimension parameter, and every one of those names is
    declared. *)
Theorem tensor_requests_declared
    (seed : Z) (dtype : string) (cuda requires_grad : bool) (s : scale) :
  Forall (fun t =>
    List.length (FuzzedTensor.size t) = 3%nat
    /\ List.length (FuzzedTensor.steps t) = 3%nat
    /\ Forall (fun nm =>
         is_Some (parameter (BinaryOpFuzzer seed dtype cuda requires_grad s) nm))
         (FuzzedTensor.size t ++ FuzzedTensor.steps t ++
          [FuzzedTensor.dim_parameter t]))
    (Fuzzer.tensors (BinaryOpFuzzer seed dtype cuda requires_grad s)).
Proof.
  destruct s; cbn [Fuzzer.tensors BinaryOpFuzzer].
  all: repeat (apply Forall_cons; split; [|]); try apply Forall_nil_2.
  all: cbn [FuzzedTensor.size FuzzedTensor.steps FuzzedTensor.dim_parameter app].
  all: split; [reflexivity|split; [reflexivity|]].
  all: repeat (apply Forall_cons; split; [by eexists; vm_compute|]).
  all: apply Forall_nil_2.
Qed.

(** X15: [structure_params] follows the tensor requests: [x_size] and
    [x_steps] are the values of the parameters that the request for [x]
    names as its size and its steps, cut by the value of the parameter it
    names as its dimension, and [y_size] and [y_steps] likewise for the
    request for [y]. *)
Theorem structure_params_follows_requests
    (seed : Z) (dtype : string) (cuda requires_grad : bool) (s : scale)
    (h : heap) (l : loc) (p : gmap string value) (d : Z) :
  h !! l = Some p ->
  (forall k, k ∈ consumed -> is_Some (p !! k)) ->
  p !! "dim" = Some (VInt d) ->
  exists (x y : FuzzedTensor.t) (out : gmap string value)
         (xs xt ys yt : list value),
    Fuzzer.tensors (BinaryOpFuzzer seed dtype cuda requires_grad s) = [x; y]
    /\ structure_params l h = (inr (List.length h), h ++ [out])
    /\ p !! FuzzedTensor.dim_parameter x = Some (VInt d)
    /\ p !! FuzzedTensor.dim_parameter y = Some (VInt d)
    /\ Forall2 (fun k v => p !! k = Some v) (FuzzedTensor.size x) xs
    /\ Forall2 (fun k v => p !! k = Some v) (FuzzedTensor.steps x) xt
    /\ Forall2 (fun k v => p !! k = Some v) (FuzzedTensor.size y) ys
    /\ Forall2 (fun k v => p !! k = Some v) (FuzzedTensor.steps y) yt
    /\ out !! "x_size" = Some (VTuple (take (slice_stop 3 d) xs))
    /\ out !! "x_steps" = Some (VTuple (take (slice_stop 3 d) xt))
    /\ out !! "y_size" = Some (VTuple (take (slice_stop 3 d) ys))
    /\ out !! "y_steps" = Some (VTuple (take (slice_stop 3 d) yt)).
Proof.
  intros Hl Hall Hdim.
  destruct (consumed_items p Hall)
    as (rv & dim & a0 & a1 & a2 & b0 & b1 & b2 & c0 & c1 & c2 & e0 & e1 & e2 &
        ? & Hd & ? & ? & ? & ? & ? & ? & ? & ? & ? & ? & ? & ?).
  rewrite Hdim in Hd. injection Hd as <-.
  destruct (structure_params_int_dim h l p d rv a0 a1 a2 b0 b1 b2 c0 c1 c2
              e0 e1 e2) as (out & Hrun & Hxs & Hxt & Hys & Hyt & _);
    try done.
  eexists _, _, out, [a0; a1; a2], [b0; b1; b2], [c0; c1; c2], [e0; e1; e2].
  split; [reflexivity|]. split; [done|].
  cbn [FuzzedTensor.dim_parameter FuzzedTensor.size FuzzedTensor.steps].
  do 2 (split; [done|]).
  do 4 (split; [by repeat constructor|]).
  done.
Qed.

Lemma structure_params_follows_requests_witness :
  exists (x y : FuzzedTensor.t) (out : gmap string value)
         (xs xt ys yt : list value),
    Fuzzer.tensors (BinaryOpFuzzer 0 "float32" false false LARGE) = [x; y]
    /\ structure_params 0%nat [sample] = (inr 1%nat, [sample] ++ [out])
    /\ sample !! FuzzedTensor.dim_parameter x = Some (VInt 2)
    /\ sample !! FuzzedTensor.dim_parameter y = Some (VInt 2)
    /\ Forall2 (fun k v => sample !! k = Some v) (FuzzedTensor.size x) xs
    /\ Forall2 (fun k v => sample !! k = Some v) (FuzzedTensor.steps x) xt
    /\ Forall2 (fun k v => sample !! k = Some v) (FuzzedTensor.size y) ys
    /\ Forall2 (fun k v => sample !! k = Some v) (FuzzedTensor.steps y) yt
    /\ out !! "x_size" = Some (VTuple (take (slice_stop 3 2) xs))
    /\ out !! "x_steps" = Some (VTuple (take (slice_stop 3 2) xt))
    /\ out !! "y_size" = Some (VTuple (take (slice_stop 3 2) ys))
    /\ out !! "y_steps" = Some (VTuple (take (slice_stop 3 2) yt)).
Proof.
  apply (structure_params_follows_requests 0 "float32" false false LARGE
           [sample] 0%nat sample 2).
  - reflexivity.
  - apply list.Forall_forall. unfold consumed.
    repeat (apply Forall_cons; split; [eexists; vm_compute; reflexivity|]).
    constructor.
  - vm_compute. reflexivity.
Defined.


Lemma literals_of_sizes (nm : string) (w : Q) (sizes : list Z) (st : option bool) :
  literals (FuzzedParameter.make nm None None
              (Weighted ((fun size => (Value size, w)) <$> sizes)) st)
  = sizes
  /\ aliases (FuzzedParameter.make nm None None
                (Weighted ((fun size => (Value size, w)) <$> sizes)) st)
     = [].
Proof.
  unfold literals, aliases. cbn [FuzzedParameter.distribution].
  induction sizes as [|z sizes [IH1 IH2]]; [done|].
  cbn [fmap list_fmap fst mbind list_bind app] in *.
  by rewrite IH1, IH2.
Qed.

(** X17: for every scale and axis, the two parameters that [k_i] can take
    its value from cover the same range: [k_any_i] is loguniform between
    [_MIN_DIM_SIZE] and [_MAX_DIM_SIZE] of the scale, a range that is not
    empty, and [k_pow2_i] has no alias and only values within it. *)
Theorem k_sources_share_range
    (seed : Z) (dtype : string) (cuda requires_grad : bool) (s : scale) (i : Z) :
  0 <= i < 3 ->
  exists (qa qp : FuzzedParameter.t),
    parameter (BinaryOpFuzzer seed dtype cuda requires_grad s)
      ("k_any_" +:+ str i) = Some qa
    /\ parameter (BinaryOpFuzzer seed dtype cuda requires_grad s)
         ("k_pow2_" +:+ str i) = Some qp
    /\ FuzzedParameter.distribution qa = Named "loguniform"
    /\ FuzzedParameter.minval qa = Some _MIN_DIM_SIZE
    /\ FuzzedParameter.maxval qa = Some (_MAX_DIM_SIZE s)
    /\ _MIN_DIM_SIZE <= _MAX_DIM_SIZE s
    /\ aliases qp = []
    /\ forall n, n ∈ literals qp -> _MIN_DIM_SIZE <= n <= _MAX_DIM_SIZE s.
Proof.
  intros Hi.
  exists (FuzzedParameter.make ("k_any_" +:+ str i)
            (Some _MIN_DIM_SIZE) (Some (_MAX_DIM_SIZE s))
            (Named "loguniform") None),
    (FuzzedParameter.make ("k_pow2_" +:+ str i) None None
       (Weighted ((fun size =>
          (Value size,
           1 / inject_Z (Z.of_nat (List.length (_POW_TWO_SIZES s))))%Q)
          <$> _POW_TWO_SIZES s))
       None).
  split; [|split].
  - destruct (axis_cases i Hi) as [->|[->| ->]]; reflexivity.
  - destruct (axis_cases i Hi) as [->|[->| ->]]; reflexivity.
  - cbn [FuzzedParameter.distribution FuzzedParameter.minval
         FuzzedParameter.maxval].
    do 3 (split; [reflexivity|]). split; [by destruct s|].
    destruct (literals_of_sizes ("k_pow2_" +:+ str i)
      (1 / inject_Z (Z.of_nat (List.length (_POW_TWO_SIZES s))))%Q
      (_POW_TWO_SIZES s) None) as [-> ->].
    split; [done|]. by intros n [_ Hn]%pow_two_sizes_spec.
Qed.

Lemma k_sources_share_range_witness :
  exists (qa qp : FuzzedParameter.t),
    parameter (BinaryOpFuzzer 0 "float32" false false MEDIUM) "k_any_2"
      = Some qa
    /\ parameter (BinaryOpFuzzer 0 "float32" false false MEDIUM) "k_pow2_2"
         = Some qp
    /\ FuzzedParameter.distribution qa = Named "loguniform"
    /\ FuzzedParameter.minval qa = Some _MIN_DIM_SIZE
    /\ FuzzedParameter.maxval qa = Some (_MAX_DIM_SIZE MEDIUM)
    /\ _MIN_DIM_SIZE <= _MAX_DIM_SIZE MEDIUM
    /\ aliases qp = []
    /\ forall n, n ∈ literals qp -> _MIN_DIM_SIZE <= n <= _MAX_DIM_SIZE MEDIUM.
Proof.
  apply (k_sources_share_range 0 "float32" false false MEDIUM 2). lia.
Defined.

(** X18: [dim] is declared strict with the values 1, 2 and 3 and no alias,
    and for each value that its table can give, [structure_params] returns
    four tuples of exactly that length. *)
Theorem declared_dim_gives_lengths
    (seed : Z) (dtype : string) (cuda requires_grad : bool) (s : scale)
    (qd : FuzzedParameter.t) (d : Z)
    (h : heap) (l : loc) (p : gmap string value) :
  parameter (BinaryOpFuzzer seed dtype cuda requires_grad s) "dim" = Some qd ->
  d ∈ literals qd ->
  h !! l = Some p ->
  (forall k, k ∈ consumed -> is_Some (p !! k)) ->
  p !! "dim" = Some (VInt d) ->
  FuzzedParameter.strict qd = Some true
  /\ aliases qd = []
  /\ literals qd = [1; 2; 3]
  /\ exists (out : gmap string value) (x_size x_steps y_size y_steps : list value),
       structure_params l h = (inr (List.length h), h ++ [out])
       /\ out !! "x_size" = Some (VTuple x_size)
       /\ out !! "x_steps" = Some (VTuple x_steps)
       /\ out !! "y_size" = Some (VTuple y_size)
       /\ out !! "y_steps" = Some (VTuple y_steps)
       /\ Z.of_nat (List.length x_size) = d
       /\ Z.of_nat (List.length x_steps) = d
       /\ Z.of_nat (List.length y_size) = d
       /\ Z.of_nat (List.length y_steps) = d.
Proof.
  intros Hqd Hd Hl Hall Hdim.
  assert (Hq : parameter (BinaryOpFuzzer seed dtype cuda requires_grad s) "dim"
    = Some (FuzzedParameter.make "dim" None None
              (Weighted [(Value 1, 0.3); (Value 2, 0.4); (Value 3, 0.3)]%Q)
              (Some true))) by reflexivity.
  rewrite Hq in Hqd. injection Hqd as <-.
  do 3 (split; [reflexivity|]).
  assert (Hrange : 1 <= d <= 3).
  { change (d ∈ [1; 2; 3]) in Hd.
    repeat (apply elem_of_cons in Hd as [->|Hd]; [lia|]).
    by apply elem_of_nil in Hd. }
  destruct (consumed_items p Hall)
    as (rv & dim & a0 & a1 & a2 & b0 & b1 & b2 & c0 & c1 & c2 & e0 & e1 & e2 &
        ? & Hdv & ? & ? & ? & ? & ? & ? & ? & ? & ? & ? & ? & ?).
  rewrite Hdim in Hdv. injection Hdv as <-.
  destruct (structure_params_int_dim h l p d rv a0 a1 a2 b0 b1 b2 c0 c1 c2
              e0 e1 e2) as (out & Hrun & Hxs & Hxt & Hys & Hyt & _);
    try done.
  assert (Hstop : slice_stop 3 d = Z.to_nat d).
  { unfold slice_stop. destruct (Z.ltb_spec d 0); lia. }
  rewrite Hstop in *.
  exists out, (take (Z.to_nat d) [a0; a1; a2]), (take (Z.to_nat d) [b0; b1; b2]),
    (take (Z.to_nat d) [c0; c1; c2]), (take (Z.to_nat d) [e0; e1; e2]).
  do 5 (split; [assumption|]).
  repeat split; rewrite length_take; cbn [List.length]; lia.
Qed.

Lemma declared_dim_gives_lengths_witness :
  FuzzedParameter.strict
    (FuzzedParameter.make "dim" None None
       (Weighted [(Value 1, 0.3); (Value 2, 0.4); (Value 3, 0.3)]%Q)
       (Some true)) = Some true
  /\ aliases
       (FuzzedParameter.make "dim" None None
          (Weighted [(Value 1, 0.3); (Value 2, 0.4); (Value 3, 0.3)]%Q)
          (Some true)) = []
  /\ literals
       (FuzzedParameter.make "dim" None None
          (Weighted [(Value 1, 0.3); (Value 2, 0.4); (Value 3, 0.3)]%Q)
          (Some true)) = [1; 2; 3]
  /\ exists (out : gmap string value) (x_size x_steps y_size y_steps : list value),
       structure_params 0%nat [sample] = (inr 1%nat, [sample] ++ [out])
       /\ out !! "x_size" = Some (VTuple x_size)
       /\ out !! "x_steps" = Some (VTuple x_steps)
       /\ out !! "y_size" = Some (VTuple y_size)
       /\ out !! "y_steps" = Some (VTuple y_steps)
       /\ Z.of_nat (List.length x_size) = 2
       /\ Z.of_nat (List.length x_steps) = 2
       /\ Z.of_nat (List.length y_size) = 2
       /\ Z.of_nat (List.length y_steps) = 2.
Proof.
  apply (declared_dim_gives_lengths 0 "float32" false false LARGE
           (FuzzedParameter.make "dim" None None
              (Weighted [(Value 1, 0.3); (Value 2, 0.4); (Value 3, 0.3)]%Q)
              (Some true))
           2 [sample] 0%nat sample).
  - vm_compute. reflexivity.
  - vm_compute. apply list_elem_of_further, list_elem_of_here.
  - reflexivity.
  - apply list.Forall_forall. unfold consumed.
    repeat (apply Forall_cons; split; [eexists; vm_compute; reflexivity|]).
    constructor.
  - vm_compute. reflexivity.
Defined.






